(** * jsonstorage: a file-per-key JSON store

    Shallow embedding of [storage.go] (the store with [Edit]), of its older
    sibling (the store without [Edit]) and of [errors.go], together with a
    model of the parts of the Go runtime the store calls: [strings.ToLower],
    [url.PathEscape], [filepath.Join]/[filepath.Ext], [encoding/json] on the
    [entry] envelope, the [errors] chain and the file system as seen through
    [fstools] and [os].

    Go strings are byte strings: they are modelled by [string], whose
    characters are the 256 byte values. *)

From Stdlib Require Import ZArith Ascii String List Bool Lia DecimalString.
From stdpp Require Import base option list strings gmap fin_maps.

Local Open Scope string_scope.
Local Open Scope Z_scope.
Local Set Warnings "-register-all".

(** ** Bytes and byte strings *)

Definition byte_val (c : ascii) : Z := Z.of_N (N_of_ascii c).
Definition byte_chr (z : Z) : ascii := ascii_of_N (Z.to_N (z mod 256)).

Definition in_range (lo hi z : Z) : bool := (lo <=? z) && (z <=? hi).

Fixpoint map_bytes (f : ascii -> ascii) (s : string) : string :=
  match s with
  | EmptyString => EmptyString
  | String c s' => String (f c) (map_bytes f s')
  end.

Fixpoint forall_bytes (p : ascii -> bool) (s : string) : bool :=
  match s with
  | EmptyString => true
  | String c s' => p c && forall_bytes p s'
  end.

Fixpoint exists_bytes (p : ascii -> bool) (s : string) : bool :=
  match s with
  | EmptyString => false
  | String c s' => p c || exists_bytes p s'
  end.

Fixpoint concat_map (f : ascii -> string) (s : string) : string :=
  match s with
  | EmptyString => EmptyString
  | String c s' => f c ++ concat_map f s'
  end.

Definition str1 (c : ascii) : string := String c EmptyString.

(** ** unicode/utf8 *)

Module utf8.

Definition RuneError : Z := 65533.
Definition RuneSelf : Z := 128.
Definition MaxRune : Z := 1114111.

Definition cont (lo hi : Z) (c : ascii) : bool := in_range lo hi (byte_val c).
Definition low6 (c : ascii) : Z := Z.land (byte_val c) 63.

(** [DecodeRuneInString]: the first rune of [s] and its width in bytes; an
    invalid or short encoding gives [(RuneError, 1)], the empty string
    [(RuneError, 0)].  The accepted ranges of the second byte are those of
    the runtime's [first]/[acceptRanges] tables. *)
Definition DecodeRune (s : string) : Z * nat :=
  match s with
  | EmptyString => (RuneError, 0%nat)
  | String c0 rest =>
    let b0 := byte_val c0 in
    if b0 <? 128 then (b0, 1%nat)
    else if in_range 194 223 b0 then
      match rest with
      | String c1 _ =>
        if cont 128 191 c1
        then (Z.lor (Z.shiftl (Z.land b0 31) 6) (low6 c1), 2%nat)
        else (RuneError, 1%nat)
      | _ => (RuneError, 1%nat)
      end
    else if in_range 224 239 b0 then
      let lo := if b0 =? 224 then 160 else 128 in
      let hi := if b0 =? 237 then 159 else 191 in
      match rest with
      | String c1 (String c2 _) =>
        if cont lo hi c1 && cont 128 191 c2
        then (Z.lor (Z.shiftl (Z.land b0 15) 12)
                (Z.lor (Z.shiftl (low6 c1) 6) (low6 c2)), 3%nat)
        else (RuneError, 1%nat)
      | _ => (RuneError, 1%nat)
      end
    else if in_range 240 244 b0 then
      let lo := if b0 =? 240 then 144 else 128 in
      let hi := if b0 =? 244 then 143 else 191 in
      match rest with
      | String c1 (String c2 (String c3 _)) =>
        if cont lo hi c1 && cont 128 191 c2 && cont 128 191 c3
        then (Z.lor (Z.shiftl (Z.land b0 7) 18)
                (Z.lor (Z.shiftl (low6 c1) 12)
                   (Z.lor (Z.shiftl (low6 c2) 6) (low6 c3))), 4%nat)
        else (RuneError, 1%nat)
      | _ => (RuneError, 1%nat)
      end
    else (RuneError, 1%nat)
  end.

Definition tail6 (r : Z) (sh : Z) : ascii :=
  byte_chr (Z.lor 128 (Z.land (Z.shiftr r sh) 63)).

(** [AppendRune] on the empty buffer: out-of-range runes and surrogates are
    written as the encoding of [RuneError]. *)
Definition EncodeRune (r : Z) : string :=
  let r := if (r <? 0) || (MaxRune <? r) || in_range 55296 57343 r
           then RuneError else r in
  if r <=? 127 then str1 (byte_chr r)
  else if r <=? 2047 then
    String (byte_chr (Z.lor 192 (Z.shiftr r 6))) (str1 (tail6 r 0))
  else if r <=? 65535 then
    String (byte_chr (Z.lor 224 (Z.shiftr r 12)))
      (String (tail6 r 6) (str1 (tail6 r 0)))
  else
    String (byte_chr (Z.lor 240 (Z.shiftr r 18)))
      (String (tail6 r 12) (String (tail6 r 6) (str1 (tail6 r 0)))).

(** The runes a [for _, c := range s] loop sees: [skip] counts the bytes of
    the current rune that are still to be passed over. *)
Fixpoint runes_from (skip : nat) (s : string) : list Z :=
  match s with
  | EmptyString => []
  | String _ s' =>
    match skip with
    | S k => runes_from k s'
    | O => let '(r, size) := DecodeRune s in r :: runes_from (size - 1) s'
    end
  end.

Definition runes (s : string) : list Z := runes_from 0 s.

Fixpoint encode_all (rs : list Z) : string :=
  match rs with
  | [] => EmptyString
  | r :: rs' => EncodeRune r ++ encode_all rs'
  end.

End utf8.

(** ** unicode and strings *)

(** The case tables of the [unicode] package for runes above ASCII are data
    of the Go runtime; the store's behaviour on ASCII keys does not depend
    on them, so they are an interface here. *)
Class UnicodeTables := { lower_table : Z -> Z }.

Module unicode.

Definition MaxASCII : Z := 127.

Definition ToLower `{UnicodeTables} (r : Z) : Z :=
  if r <=? MaxASCII then
    (if in_range 65 90 r then r + 32 else r)
  else lower_table r.

End unicode.

Module strings.

Definition isUpperByte (c : ascii) : bool := in_range 65 90 (byte_val c).
Definition isASCIIByte (c : ascii) : bool := byte_val c <? utf8.RuneSelf.
Definition lowerByte (c : ascii) : ascii :=
  if isUpperByte c then byte_chr (byte_val c + 32) else c.

(** [strings.Map]: every rune of [s] (an invalid byte counts as
    [RuneError]) is replaced by its image, and a negative image is
    dropped. *)
Definition Map (mapping : Z -> Z) (s : string) : string :=
  utf8.encode_all (filter (fun r => 0 <= r) (map mapping (utf8.runes s))).

(** [strings.ToLower], with its fast path for ASCII-only strings. *)
Definition ToLower `{UnicodeTables} (s : string) : string :=
  let isASCII := forall_bytes isASCIIByte s in
  let hasUpper := exists_bytes isUpperByte s in
  if isASCII then
    if negb hasUpper then s else map_bytes lowerByte s
  else Map unicode.ToLower s.

End strings.

(** ** net/url *)

Module url.

Definition upperhex : string := "0123456789ABCDEF".

Definition hex_digit (n : Z) : ascii :=
  match String.get (Z.to_nat n) upperhex with
  | Some c => c
  | None => "0"%char
  end.

Definition isAlnum (b : Z) : bool :=
  in_range 97 122 b || in_range 65 90 b || in_range 48 57 b.

(** [shouldEscape c encodePathSegment]. *)
Definition shouldEscape (c : ascii) : bool :=
  let b := byte_val c in
  if isAlnum b then false
  else if existsb (Z.eqb b) [45; 95; 46; 126] (* - _ . ~ *) then false
  else if existsb (Z.eqb b) [36; 38; 43; 44; 47; 58; 59; 61; 63; 64]
          (* $ & + , / : ; = ? @ *)
       then existsb (Z.eqb b) [47; 59; 44; 63] (* / ; , ? *)
  else true.

Definition escape_byte (c : ascii) : string :=
  if shouldEscape c then
    String "%"%char
      (String (hex_digit (Z.shiftr (byte_val c) 4))
         (str1 (hex_digit (Z.land (byte_val c) 15))))
  else str1 c.

Definition PathEscape (s : string) : string := concat_map escape_byte s.

End url.

(** ** path/filepath (Unix) *)

Module filepath.

Definition is_sep (c : ascii) : bool := byte_val c =? 47.
Definition is_dot (c : ascii) : bool := byte_val c =? 46.

(** The elements of a path between separators. *)
Fixpoint split (s : string) : list string :=
  match s with
  | EmptyString => [EmptyString]
  | String c s' =>
    if is_sep c then EmptyString :: split s'
    else match split s' with
         | h :: t => String c h :: t
         | [] => [str1 c]
         end
  end.

Fixpoint join (elems : list string) : string :=
  match elems with
  | [] => EmptyString
  | [e] => e
  | e :: rest => e ++ "/" ++ join rest
  end.

(** One element of [Clean]'s lexical processing; [out] holds the elements
    kept so far, innermost first. *)
Definition clean_step (rooted : bool) (out : list string) (e : string)
  : list string :=
  if String.eqb e "" || String.eqb e "." then out
  else if String.eqb e ".." then
    match out with
    | top :: below => if String.eqb top ".." then e :: out else below
    | [] => if rooted then out else [e]
    end
  else e :: out.

Definition Clean (path : string) : string :=
  match path with
  | EmptyString => "."
  | String c _ =>
    let rooted := is_sep c in
    let out := join (rev (fold_left (clean_step rooted) (split path) [])) in
    if rooted then "/" ++ out
    else if String.eqb out "" then "." else out
  end.

(** [Join dir name]: empty elements are ignored, the rest is joined with
    the separator and cleaned. *)
Definition Join (dir name : string) : string :=
  if negb (String.eqb dir "") then Clean (dir ++ "/" ++ name)
  else if negb (String.eqb name "") then Clean name
  else "".

Inductive ext_scan := ExtFound (e : string) | ExtSep | ExtNone.

Fixpoint scan_ext (s : string) : ext_scan :=
  match s with
  | EmptyString => ExtNone
  | String c s' =>
    match scan_ext s' with
    | ExtNone =>
      if is_sep c then ExtSep
      else if is_dot c then ExtFound s else ExtNone
    | r => r
    end
  end.

(** [Ext]: the suffix starting at the last dot of the last element. *)
Definition Ext (path : string) : string :=
  match scan_ext path with
  | ExtFound e => e
  | _ => ""
  end.

(** The part of [s] up to and including its last separator, and the part
    after it ([filepath.Split]). *)
Fixpoint Split (s : string) : string * string :=
  match s with
  | EmptyString => (EmptyString, EmptyString)
  | String c s' =>
    let '(d, f) := Split s' in
    if is_sep c then (String c d, f)
    else if String.eqb d "" then (EmptyString, String c f)
    else (String c d, f)
  end.

Definition Dir (path : string) : string := Clean (fst (Split path)).

End filepath.

(** ** errors *)

Inductive Errno :=
  ENOENT | EACCES | EISDIR | ENOTDIR | ENOTEMPTY | EIO | ENOSPC.

(** Go error values.  [errorString] is what [errors.New] allocates: [addr]
    stands for the identity of the allocation, so that two errors with the
    same text stay distinct.  [wrapError] is what [fmt.Errorf] returns for
    a format with one [%w] verb: the formatted message and the wrapped
    error. *)
Inductive error :=
| errorString (addr : nat) (text : string)
| syscallErrno (e : Errno)
| PathError (op path : string) (err : error)
| wrapError (msg : string) (err : error)
| jsonError (msg : string).

#[global] Instance Errno_eq_dec : EqDecision Errno.
Proof. solve_decision. Defined.

#[global] Instance error_eq_dec : EqDecision error.
Proof. solve_decision. Defined.

Module syscall.

Definition strerror (e : Errno) : string :=
  match e with
  | ENOENT => "no such file or directory"
  | EACCES => "permission denied"
  | EISDIR => "is a directory"
  | ENOTDIR => "not a directory"
  | ENOTEMPTY => "directory not empty"
  | EIO => "input/output error"
  | ENOSPC => "no space left on device"
  end.

End syscall.

Module os.

Definition ErrNotExist : error := errorString 0 "file does not exist".
Definition ErrPermission : error := errorString 1 "permission denied".
Definition ErrExist : error := errorString 2 "file already exists".

End os.

Module io.

Definition EOF : error := errorString 3 "EOF".

(** What a callback reads from an [io.Reader]: the whole content, or the
    error of the first [Read]. *)
Definition Reader : Type := error + string.

End io.

(** The [Error] method. *)
Fixpoint Error (err : error) : string :=
  match err with
  | errorString _ text => text
  | syscallErrno e => syscall.strerror e
  | PathError op path err' => op ++ " " ++ path ++ ": " ++ Error err'
  | wrapError msg _ => msg
  | jsonError msg => msg
  end.

Module errors.

Definition New (addr : nat) (text : string) : error := errorString addr text.

(** The [Is] method of [syscall.Errno]. *)
Definition Errno_Is (e : Errno) (target : error) : bool :=
  if decide (target = os.ErrNotExist) then bool_decide (e = ENOENT)
  else if decide (target = os.ErrPermission) then bool_decide (e = EACCES)
  else if decide (target = os.ErrExist) then bool_decide (e = ENOTEMPTY)
  else false.

(** [errors.Is]: walk the [Unwrap] chain of [err], comparing each link with
    [target] and asking its [Is] method.  The targets the store tests for
    are sentinels, which [addr] tells apart. *)
Fixpoint Is (err target : error) : bool :=
  if decide (err = target) then true
  else match err with
       | syscallErrno e => Errno_Is e target
       | PathError _ _ err' => Is err' target
       | wrapError _ err' => Is err' target
       | errorString _ _ | jsonError _ => false
       end.

End errors.

Module fmt.

(** [fmt.Errorf("%w" ++ rest, sentinel, ...)], [tail] being the formatted
    rest. *)
Definition Errorf_w (sentinel : error) (tail : string) : error :=
  wrapError (Error sentinel ++ tail) sentinel.

End fmt.

(** ** The file system

    The store touches one directory and the files directly inside it, so
    the file system is a finite map from (cleaned) directory paths to the
    state of that directory.  A path that is not a key is a directory that
    does not exist.  Failures of the environment are part of the state:
    a directory can be unusable, a name can be bound to something that
    cannot be read, written or removed. *)

Inductive node :=
| File (data : string)          (* a regular file and its content *)
| Directory (empty : bool)      (* a subdirectory *)
| Dangling                      (* a symbolic link whose target is missing *)
| Denied.                       (* a file without any permission *)

Inductive dirstate :=
| Unusable (e : Errno)           (* every access below fails with [e] *)
| Present (children : gmap string node).

Abbreviation FS := (gmap string dirstate).

Record DirEntry := { Name : string; IsDir : bool }.

Module fsys.

Definition node_is_dir (n : node) : bool :=
  match n with Directory _ => true | _ => false end.

(** Path resolution: what the name [path] is bound to. *)
Definition lookup (path : string) (fs : FS) : Errno + node :=
  match fs !! filepath.Dir path with
  | None => inl ENOENT
  | Some (Unusable e) => inl e
  | Some (Present children) =>
    match children !! snd (filepath.Split path) with
    | None => inl ENOENT
    | Some n => inr n
    end
  end.

(** [stat(2)]: follows symbolic links. *)
Definition stat (path : string) (fs : FS) : Errno + bool :=
  match lookup path fs with
  | inl e => inl e
  | inr Dangling => inl ENOENT
  | inr n => inr (node_is_dir n)
  end.

(** Binding [path] to [n] in a directory that is there. *)
Definition bind (path : string) (n : option node) (fs : FS) : FS :=
  match fs !! filepath.Dir path with
  | Some (Present children) =>
    <[filepath.Dir path :=
        Present (match n with
                 | Some n => <[snd (filepath.Split path) := n]> children
                 | None => delete (snd (filepath.Split path)) children
                 end)]> fs
  | _ => fs
  end.

End fsys.

Module osfs.

(** [os.Remove]: unlinks a file or a link, removes an empty directory. *)
Definition Remove (path : string) (fs : FS) : option error * FS :=
  match fsys.lookup path fs with
  | inl e => (Some (PathError "remove" path (syscallErrno e)), fs)
  | inr (Directory false) =>
    (Some (PathError "remove" path (syscallErrno ENOTEMPTY)), fs)
  | inr _ => (None, fsys.bind path None fs)
  end.

End osfs.

(** ** fstools

    Modelled from the spec: the file helpers of the package
    [github.com/thamaji/fstools], a dependency of the store whose source is
    not part of the package.  [ReadDir] lists a directory, with a
    distinguishable error when it is absent; [ReadFileFunc] hands the
    content of a file to a callback; [WriteFileFunc] creates the missing
    directory and replaces the file by what the callback wrote, and leaves
    it alone when the callback fails; [Exists] reports whether [stat]
    succeeds. *)

Module fstools.

Definition ReadDir (dir : string) (fs : FS) : list DirEntry * option error :=
  let fail e := ([], Some (PathError "open" dir (syscallErrno e))) in
  if String.eqb dir "" then fail ENOENT
  else match fs !! filepath.Clean dir with
       | None => fail ENOENT
       | Some (Unusable e) => fail e
       | Some (Present children) =>
         (map (fun '(name, n) =>
                 {| Name := name; IsDir := fsys.node_is_dir n |})
              (map_to_list children), None)
       end.

(** The callback [f] decodes from the reader into a variable it captured;
    [a] is the content of that variable before the call, and the result
    carries its content after it. *)
Definition ReadFileFunc {A : Type} (path : string)
    (f : io.Reader -> A -> A * option error) (fs : FS) (a : A)
  : A * option error :=
  let fail e := (a, Some (PathError "open" path (syscallErrno e))) in
  match fsys.lookup path fs with
  | inl e => fail e
  | inr (File data) => f (inr data) a
  | inr (Directory _) =>
    f (inl (PathError "read" path (syscallErrno EISDIR))) a
  | inr Dangling => fail ENOENT
  | inr Denied => fail EACCES
  end.

(** The callback is given by its outcome: the bytes it wrote to the
    writer and the error it returned. *)
Definition WriteFileFunc (path : string) (f : string * option error)
    (fs : FS) : option error * FS :=
  let fail e := (Some (PathError "open" path (syscallErrno e)), fs) in
  let store data :=
    match fs !! filepath.Dir path with
    | None =>
      <[filepath.Dir path :=
          Present {[snd (filepath.Split path) := File data]}]> fs
    | _ => fsys.bind path (Some (File data)) fs
    end in
  match fs !! filepath.Dir path, fsys.lookup path fs with
  | Some (Unusable e), _ => fail e
  | _, inr (Directory _) => fail EISDIR
  | _, inr Denied => fail EACCES
  | _, _ =>
    match f with
    | (_, Some err) => (Some err, fs)
    | (data, None) => (None, store data)
    end
  end.

Definition Exists (path : string) (fs : FS) : bool :=
  match fsys.stat path fs with
  | inr _ => true
  | inl _ => false
  end.

End fstools.

(** ** encoding/json

    The package of the standard library, as documented.  JSON texts are
    parsed to trees.  A number keeps its literal, a string is held
    unquoted.  [parse] reads one value from the front of its input and
    returns what follows it, as [Decoder.Decode] does with a stream. *)

Module json.

Inductive value :=
| Null
| Bool (b : bool)
| Number (lit : string)
| Str (s : string)
| Array (elems : list value)
| Object (members : list (string * value)).

Definition hex : string := "0123456789abcdef".

Definition hex_digit (n : Z) : ascii :=
  match String.get (Z.to_nat n) hex with
  | Some c => c
  | None => "0"%char
  end.

Definition backslash : ascii := byte_chr 92.
Definition dquote : ascii := byte_chr 34.

(** *** Encoding of strings ([appendString] with HTML escaping, the
    default of an [Encoder]) *)

Definition quote_ascii (c : ascii) : string :=
  let b := byte_val c in
  if (b =? 34) || (b =? 92) then String backslash (str1 c)
  else if b =? 8 then String backslash "b"
  else if b =? 12 then String backslash "f"
  else if b =? 10 then String backslash "n"
  else if b =? 13 then String backslash "r"
  else if b =? 9 then String backslash "t"
  else if (b <? 32) || (b =? 60) || (b =? 62) || (b =? 38) then
    String backslash
      ("u00" ++ String (hex_digit (Z.shiftr b 4))
                  (str1 (hex_digit (Z.land b 15))))
  else str1 c.

(** [skip] bytes of the current rune remain; they are copied when [copy]
    is set and dropped otherwise. *)
Fixpoint quote_from (skip : nat) (copy : bool) (s : string) : string :=
  match s with
  | EmptyString => EmptyString
  | String c s' =>
    match skip with
    | S k =>
      (if copy then str1 c else EmptyString) ++ quote_from k copy s'
    | O =>
      if byte_val c <? utf8.RuneSelf then
        quote_ascii c ++ quote_from 0 true s'
      else
        let '(r, size) := utf8.DecodeRune s in
        if (r =? utf8.RuneError) && (size =? 1)%nat then
          String backslash "ufffd" ++ quote_from 0 true s'
        else if (r =? 8232) || (r =? 8233) then
          String backslash ("u202" ++ str1 (hex_digit (Z.land r 15)))
            ++ quote_from (size - 1) false s'
        else str1 c ++ quote_from (size - 1) true s'
    end
  end.

Definition quote (s : string) : string :=
  String dquote (quote_from 0 true s) ++ str1 dquote.

(** Compact printing of a tree. *)
Fixpoint print (v : value) : string :=
  match v with
  | Null => "null"
  | Bool true => "true"
  | Bool false => "false"
  | Number lit => lit
  | Str s => quote s
  | Array elems =>
    "[" ++ (fix go (l : list value) : string :=
              match l with
              | [] => ""
              | [e] => print e
              | e :: rest => print e ++ "," ++ go rest
              end) elems ++ "]"
  | Object members =>
    "{" ++ (fix go (l : list (string * value)) : string :=
              match l with
              | [] => ""
              | [(k, e)] => quote k ++ ":" ++ print e
              | (k, e) :: rest => quote k ++ ":" ++ print e ++ "," ++ go rest
              end) members ++ "}"
  end.

(** *** The scanner *)

Definition isSpace (c : ascii) : bool :=
  let b := byte_val c in (b =? 32) || (b =? 9) || (b =? 13) || (b =? 10).

Definition isDigit (c : ascii) : bool := in_range 48 57 (byte_val c).

Fixpoint skip_ws (s : string) : string :=
  match s with
  | String c s' => if isSpace c then skip_ws s' else s
  | EmptyString => s
  end.

Fixpoint span (p : ascii -> bool) (s : string) : string * string :=
  match s with
  | String c s' =>
    if p c then let '(a, b) := span p s' in (String c a, b)
    else (EmptyString, s)
  | EmptyString => (EmptyString, EmptyString)
  end.

Definition hexval (c : ascii) : option Z :=
  let b := byte_val c in
  if in_range 48 57 b then Some (b - 48)
  else if in_range 97 102 b then Some (b - 87)
  else if in_range 65 70 b then Some (b - 55)
  else None.

(** [getu4] on the four digits after a backslash and a [u]. *)
Definition hex4 (a b c d : ascii) : option Z :=
  match hexval a, hexval b, hexval c, hexval d with
  | Some x, Some y, Some z, Some w => Some (((x * 16 + y) * 16 + z) * 16 + w)
  | _, _, _, _ => None
  end.

Definition simple_escape (c : ascii) : option ascii :=
  let b := byte_val c in
  if (b =? 34) || (b =? 92) || (b =? 47) then Some c
  else if b =? 98 then Some (byte_chr 8)
  else if b =? 102 then Some (byte_chr 12)
  else if b =? 110 then Some (byte_chr 10)
  else if b =? 114 then Some (byte_chr 13)
  else if b =? 116 then Some (byte_chr 9)
  else None.

Definition isSurrogate (r : Z) : bool := in_range 55296 57343 r.

(** [utf16.DecodeRune]. *)
Definition utf16_DecodeRune (r1 r2 : Z) : Z :=
  if in_range 55296 56319 r1 && in_range 56320 57343 r2
  then Z.lor (Z.shiftl (r1 - 55296) 10) (r2 - 56320) + 65536
  else utf8.RuneError.

(** The second half of a surrogate pair, when [s] starts with one. *)
Definition next_u4 (s : string) : option Z :=
  match s with
  | String e (String u (String a (String b (String c (String d _))))) =>
    if (byte_val e =? 92) && (byte_val u =? 117) then hex4 a b c d else None
  | _ => None
  end.

Definition prepend (pre : string) (r : option (string * string))
  : option (string * string) :=
  match r with
  | Some (out, rest) => Some (pre ++ out, rest)
  | None => None
  end.

(** The body of a string literal, after its opening quote: the unquoted
    string and what follows the closing quote.  Escapes are resolved and
    the result is coerced to well-formed UTF-8, as [unquote] does. *)
Fixpoint string_body (skip : nat) (s : string) : option (string * string) :=
  match s with
  | EmptyString => None
  | String c s' =>
    match skip with
    | S k => string_body k s'
    | O =>
      let b := byte_val c in
      if b =? 34 then Some (EmptyString, s')
      else if b =? 92 then
        match s' with
        | String e r =>
          if byte_val e =? 117 then
            match r with
            | String h1 (String h2 (String h3 (String h4 r4))) =>
              match hex4 h1 h2 h3 h4 with
              | Some rr =>
                if isSurrogate rr then
                  let dec := match next_u4 r4 with
                             | Some rr1 => utf16_DecodeRune rr rr1
                             | None => utf8.RuneError
                             end in
                  if dec =? utf8.RuneError then
                    prepend (utf8.EncodeRune utf8.RuneError) (string_body 0 r4)
                  else
                    prepend (utf8.EncodeRune dec) (string_body 6 r4)
                else prepend (utf8.EncodeRune rr) (string_body 0 r4)
              | None => None
              end
            | _ => None
            end
          else
            match simple_escape e with
            | Some x => prepend (str1 x) (string_body 0 r)
            | None => None
            end
        | EmptyString => None
        end
      else if b <? 32 then None
      else if b <? utf8.RuneSelf then prepend (str1 c) (string_body 0 s')
      else
        let '(rr, size) := utf8.DecodeRune s in
        prepend (utf8.EncodeRune rr) (string_body (size - 1) s')
    end
  end.

(** A number literal at the front of [s]. *)
Definition number (s : string) : option (string * string) :=
  let '(sign, s1) :=
    match s with
    | String c r => if byte_val c =? 45 then (str1 c, r) else (EmptyString, s)
    | _ => (EmptyString, s)
    end in
  let int_part :=
    match s1 with
    | String c r =>
      if byte_val c =? 48 then Some (str1 c, r)
      else if isDigit c then Some (span isDigit s1)
      else None
    | _ => None
    end in
  match int_part with
  | None => None
  | Some (ip, s2) =>
    let frac :=
      match s2 with
      | String c r =>
        if byte_val c =? 46 then
          match span isDigit r with
          | (EmptyString, _) => None
          | (ds, r') => Some (String c ds, r')
          end
        else Some (EmptyString, s2)
      | _ => Some (EmptyString, s2)
      end in
    match frac with
    | None => None
    | Some (fp, s3) =>
      let exp :=
        match s3 with
        | String c r =>
          if (byte_val c =? 101) || (byte_val c =? 69) then
            let '(sg, r1) :=
              match r with
              | String c' r' =>
                if (byte_val c' =? 43) || (byte_val c' =? 45)
                then (str1 c', r') else (EmptyString, r)
              | _ => (EmptyString, r)
              end in
            match span isDigit r1 with
            | (EmptyString, _) => None
            | (ds, r') => Some (String c (sg ++ ds), r')
            end
          else Some (EmptyString, s3)
        | _ => Some (EmptyString, s3)
        end in
      match exp with
      | None => None
      | Some (ep, s4) => Some (sign ++ ip ++ fp ++ ep, s4)
      end
    end
  end.

(** [s] starts with the keyword [kw]: what follows it. *)
Fixpoint keyword (kw s : string) : option string :=
  match kw, s with
  | EmptyString, _ => Some s
  | String k kw', String c s' =>
    if Ascii.eqb k c then keyword kw' s' else None
  | _, _ => None
  end.

(** The scanner refuses more than this many open arrays and objects. *)
Definition maxNestingDepth : nat := 100 * 100.

(** One value at the front of [s].  [depth] is the number of arrays and
    objects that may still be opened; [n] bounds the recursion. *)
Fixpoint parse_value (n depth : nat) (s : string) : option (value * string) :=
  match n with
  | O => None
  | S n' =>
    match skip_ws s with
    | EmptyString => None
    | String c r as s0 =>
      let b := byte_val c in
      if b =? 123 then
        match depth, skip_ws r with
        | S depth', String c' r' =>
          if byte_val c' =? 125 then Some (Object [], r')
          else match parse_members n' depth' (skip_ws r) with
               | Some (ms, rest) => Some (Object ms, rest)
               | None => None
               end
        | _, _ => None
        end
      else if b =? 91 then
        match depth, skip_ws r with
        | S depth', String c' r' =>
          if byte_val c' =? 93 then Some (Array [], r')
          else match parse_elems n' depth' r with
               | Some (es, rest) => Some (Array es, rest)
               | None => None
               end
        | _, _ => None
        end
      else if b =? 34 then
        match string_body 0 r with
        | Some (str, rest) => Some (Str str, rest)
        | None => None
        end
      else if b =? 116 then
        option_map (pair (Bool true)) (keyword "true" s0)
      else if b =? 102 then
        option_map (pair (Bool false)) (keyword "false" s0)
      else if b =? 110 then
        option_map (pair Null) (keyword "null" s0)
      else
        match number s0 with
        | Some (lit, rest) => Some (Number lit, rest)
        | None => None
        end
    end
  end
with parse_elems (n depth : nat) (s : string)
  : option (list value * string) :=
  match n with
  | O => None
  | S n' =>
    match parse_value n' depth s with
    | Some (v, rest) =>
      match skip_ws rest with
      | String c r =>
        if byte_val c =? 44 then
          match parse_elems n' depth r with
          | Some (vs, rest') => Some (v :: vs, rest')
          | None => None
          end
        else if byte_val c =? 93 then Some ([v], r)
        else None
      | EmptyString => None
      end
    | None => None
    end
  end
with parse_members (n depth : nat) (s : string)
  : option (list (string * value) * string) :=
  match n with
  | O => None
  | S n' =>
    match skip_ws s with
    | String q r =>
      if byte_val q =? 34 then
        match string_body 0 r with
        | Some (k, rest) =>
          match skip_ws rest with
          | String c r1 =>
            if byte_val c =? 58 then
              match parse_value n' depth r1 with
              | Some (v, rest1) =>
                match skip_ws rest1 with
                | String c' r2 =>
                  if byte_val c' =? 44 then
                    match parse_members n' depth r2 with
                    | Some (ms, rest2) => Some ((k, v) :: ms, rest2)
                    | None => None
                    end
                  else if byte_val c' =? 125 then Some ([(k, v)], r2)
                  else None
                | EmptyString => None
                end
              | None => None
              end
            else None
          | EmptyString => None
          end
        | None => None
        end
      else None
    | EmptyString => None
    end
  end.

(** Every level of nesting and every member consumes a byte, so the length
    of the input (twice, with room to spare) bounds the recursion. *)
Definition parse (s : string) : option (value * string) :=
  parse_value (2 * String.length s + 2) maxNestingDepth s.

End json.

(** The payload type [T] of a store, with what [encoding/json] does on it:
    its zero value, its encoding (or the text of the error) and its
    decoding into a variable that holds [old].  A failure is given by its
    text: the error values are those of the package, as they are for the
    types of the language. *)
Class JSONType (T : Type) := {
  zero : T;
  marshalJSON : T -> string + json.value;
  unmarshalJSON : json.value -> T -> string + T;
}.

(** [type entry[T any] struct { Key string `json:"key"`; Value T `json:"value"` }] *)
Record entry (T : Type) := { Key : string; Value : T }.
Arguments Key {T} _.
Arguments Value {T} _.

Module jsonentry.

Import json.

Definition newline : string := str1 (byte_chr 10).

Inductive field := FKey | FValue.

(** [foldName]: ASCII letters are upper-cased; the long s and the Kelvin
    sign are the only other runes whose case orbit reaches ASCII. *)
Definition foldRune (r : Z) : Z :=
  if in_range 97 122 r then r - 32
  else if r =? 383 then 83
  else if r =? 8490 then 75
  else r.

Definition foldName (s : string) : string :=
  utf8.encode_all (map foldRune (utf8.runes s)).

(** The struct field a member name selects: an exact match of the tag
    first, a case-insensitive one otherwise. *)
Definition field_of (name : string) : option field :=
  if String.eqb name "key" then Some FKey
  else if String.eqb name "value" then Some FValue
  else if String.eqb (foldName name) "KEY" then Some FKey
  else if String.eqb (foldName name) "VALUE" then Some FValue
  else None.

Definition kind (v : value) : string :=
  match v with
  | Null => "null"
  | Bool _ => "bool"
  | Number _ => "number"
  | Str _ => "string"
  | Array _ => "array"
  | Object _ => "object"
  end.

Section Codec.

Context {T : Type} `{JSONType T}.

(** [json.NewEncoder(w).Encode(entry[T]{...})]: what is written to [w] and
    the error returned.  The texts of the package's errors are abridged. *)
Definition Encode (e : entry T) : string * option error :=
  match marshalJSON (Value e) with
  | inl msg => (EmptyString, Some (jsonError msg))
  | inr v =>
    (print (Object [("key", Str (Key e)); ("value", v)]) ++ newline, None)
  end.

Definition save (err : option error) (e : error) : option error :=
  match err with
  | None => Some e
  | Some _ => err
  end.

(** One member of the object stored into the struct: a member that selects
    no field is skipped, a [null] leaves the field as it is, a value of
    the wrong kind is recorded as the error and decoding goes on. *)
Definition store_member (st : entry T * option error) (m : string * value)
  : entry T * option error :=
  let '(ent, err) := st in
  match field_of (fst m) with
  | None => st
  | Some FKey =>
    match snd m with
    | Str s => ({| Key := s; Value := Value ent |}, err)
    | Null => st
    | v =>
      (ent, save err (jsonError ("json: cannot unmarshal " ++ kind v
                ++ " into Go struct field entry.key of type string")))
    end
  | Some FValue =>
    match unmarshalJSON (snd m) (Value ent) with
    | inr x => ({| Key := Key ent; Value := x |}, err)
    | inl msg => (ent, save err (jsonError msg))
    end
  end.

Definition unmarshal (v : value) (ent : entry T) : entry T * option error :=
  match v with
  | Null => (ent, None)
  | Object members => fold_left store_member members (ent, None)
  | v =>
    (ent, Some (jsonError ("json: cannot unmarshal " ++ kind v
              ++ " into Go value of type jsonstorage.entry")))
  end.

(** [json.NewDecoder(r).Decode(&ent)]: [ent] before and after the call. *)
Definition Decode (r : io.Reader) (ent : entry T) : entry T * option error :=
  match r with
  | inl err => (ent, Some err)
  | inr data =>
    match parse data with
    | Some (v, _) => unmarshal v ent
    | None =>
      (ent, Some (if String.eqb (skip_ws data) "" then io.EOF
                  else jsonError "invalid character in JSON input"))
    end
  end.

End Codec.

End jsonentry.

(** ** errors.go *)

Module jsonstorage.

Definition ErrNotExist : error := errors.New 16 "entry does not exist".
Definition ErrInternal : error := errors.New 17 "internal error".

(** ** storage.go

    The mutex of [Storage] orders concurrent calls; one call at a time is
    modelled here, so the lock has no counterpart.  A callback is a
    function on the state [U] its closure captured and cannot reach the
    files of the store. *)

Record Storage := { dir : string }.

Definition New (dir : string) : Storage := {| dir := dir |}.

Section Operations.

Context `{UnicodeTables} {T : Type} `{JSONType T}.

(** [entry[T]{}] *)
Definition empty_entry : entry T := {| Key := EmptyString; Value := zero |}.

Section Range.

Context {U : Type}.
Variable storage : Storage.
Variable f : string -> T -> U -> option error * U.
Variable fs : FS.

(** The body of [for _, direntry := range direntries]. *)
Fixpoint range_loop (direntries : list DirEntry) (u : U) : option error * U :=
  match direntries with
  | [] => (None, u)
  | direntry :: rest =>
    if IsDir direntry then range_loop rest u
    else
      let name := Name direntry in
      if negb (String.eqb (filepath.Ext name) ".json") then range_loop rest u
      else
        let path := filepath.Join (dir storage) name in
        let '(ent, err) :=
          fstools.ReadFileFunc path jsonentry.Decode fs empty_entry in
        match err with
        | Some err =>
          if errors.Is err os.ErrNotExist then range_loop rest u
          else (Some (fmt.Errorf_w ErrInternal
                        (": failed to range JSONs: " ++ Error err)), u)
        | None =>
          match f (Key ent) (Value ent) u with
          | (Some err, u') => (Some err, u')
          | (None, u') => range_loop rest u'
          end
        end
  end.

Definition Range (u : U) : option error * U :=
  let '(direntries, err) := fstools.ReadDir (dir storage) fs in
  match err with
  | Some err =>
    if errors.Is err os.ErrNotExist then (None, u)
    else (Some (fmt.Errorf_w ErrInternal
                  (": failed to range JSONs: " ++ Error err)), u)
  | None => range_loop direntries u
  end.

End Range.

Definition Get (storage : Storage) (key : string) (fs : FS)
  : T * option error :=
  let key := strings.ToLower key in
  let path := filepath.Join (dir storage) (url.PathEscape key ++ ".json") in
  let '(ent, err) :=
    fstools.ReadFileFunc path jsonentry.Decode fs empty_entry in
  match err with
  | Some err =>
    if errors.Is err os.ErrNotExist
    then (zero, Some (fmt.Errorf_w ErrNotExist (": " ++ key)))
    else (zero, Some (fmt.Errorf_w ErrInternal
                        (": failed to get JSON: " ++ Error err)))
  | None => (Value ent, None)
  end.

Definition Put (storage : Storage) (key : string) (value : T) (fs : FS)
  : option error * FS :=
  let key := strings.ToLower key in
  let path := filepath.Join (dir storage) (url.PathEscape key ++ ".json") in
  let '(err, fs) :=
    fstools.WriteFileFunc path
      (jsonentry.Encode {| Key := key; Value := value |}) fs in
  match err with
  | Some err =>
    (Some (fmt.Errorf_w ErrInternal
             (": failed to put JSON: " ++ Error err)), fs)
  | None => (None, fs)
  end.

Definition Edit {U : Type} (storage : Storage) (key : string)
    (f : T -> U -> (T * option error) * U) (fs : FS) (u : U)
  : (T * option error) * FS * U :=
  let key := strings.ToLower key in
  let path := filepath.Join (dir storage) (url.PathEscape key ++ ".json") in
  let '(ent, err) :=
    fstools.ReadFileFunc path jsonentry.Decode fs empty_entry in
  match err with
  | Some err =>
    if errors.Is err os.ErrNotExist
    then ((zero, Some (fmt.Errorf_w ErrNotExist (": " ++ key))), fs, u)
    else ((zero, Some (fmt.Errorf_w ErrInternal
                         (": failed to edit JSON: " ++ Error err))), fs, u)
  | None =>
    let '((value, err), u) := f (Value ent) u in
    match err with
    | Some err => ((zero, Some err), fs, u)
    | None =>
      let '(err, fs) :=
        fstools.WriteFileFunc path
          (jsonentry.Encode {| Key := key; Value := value |}) fs in
      match err with
      | Some err =>
        ((zero, Some (fmt.Errorf_w ErrInternal
                        (": failed to edit JSON: " ++ Error err))), fs, u)
      | None => ((value, None), fs, u)
      end
    end
  end.

Definition Delete (storage : Storage) (key : string) (fs : FS)
  : option error * FS :=
  let key := strings.ToLower key in
  let path := filepath.Join (dir storage) (url.PathEscape key ++ ".json") in
  if fstools.Exists path fs then
    let '(err, fs) := osfs.Remove path fs in
    match err with
    | Some err =>
      (Some (fmt.Errorf_w ErrInternal
               (": failed to delete JSON: " ++ Error err)), fs)
    | None => (None, fs)
    end
  else (None, fs).

End Operations.

End jsonstorage.

(** ** The older store (no [Edit])

    The second source file of the package: the same type and methods, with
    a helper [get] and explicit unlocking. *)

Module legacy.

Import jsonstorage.

Record Storage := { dir : string }.

Definition New (dir : string) : Storage := {| dir := dir |}.

Section Operations.

Context `{UnicodeTables} {T : Type} `{JSONType T}.

Definition get (storage : Storage) (path : string) (fs : FS)
  : entry T * option error :=
  fstools.ReadFileFunc path jsonentry.Decode fs
    {| Key := EmptyString; Value := zero |}.

Section Range.

Context {U : Type}.
Variable storage : Storage.
Variable f : string -> T -> U -> option error * U.
Variable fs : FS.

Fixpoint range_loop (direntries : list DirEntry) (u : U) : option error * U :=
  match direntries with
  | [] => (None, u)
  | direntry :: rest =>
    if IsDir direntry then range_loop rest u
    else
      let name := Name direntry in
      if negb (String.eqb (filepath.Ext name) ".json") then range_loop rest u
      else
        let path := filepath.Join (dir storage) name in
        let '(entry, err) := get storage path fs in
        match err with
        | Some err =>
          if errors.Is err os.ErrNotExist then range_loop rest u
          else (Some (fmt.Errorf_w ErrInternal
                        (": failed to range JSONs: " ++ Error err)), u)
        | None =>
          match f (Key entry) (Value entry) u with
          | (Some err, u') => (Some err, u')
          | (None, u') => range_loop rest u'
          end
        end
  end.

Definition Range (u : U) : option error * U :=
  let '(direntries, err) := fstools.ReadDir (dir storage) fs in
  match err with
  | Some err =>
    if errors.Is err os.ErrNotExist then (None, u)
    else (Some (fmt.Errorf_w ErrInternal
                  (": failed to range JSONs: " ++ Error err)), u)
  | None => range_loop direntries u
  end.

End Range.

Definition Get (storage : Storage) (key : string) (fs : FS)
  : T * option error :=
  let key := strings.ToLower key in
  let path := filepath.Join (dir storage) (url.PathEscape key ++ ".json") in
  let '(entry, err) := get storage path fs in
  match err with
  | Some err =>
    if errors.Is err os.ErrNotExist
    then (zero, Some (fmt.Errorf_w ErrNotExist (": " ++ key)))
    else (zero, Some (fmt.Errorf_w ErrInternal
                        (": failed to get JSON: " ++ Error err)))
  | None => (Value entry, None)
  end.

Definition Put (storage : Storage) (key : string) (value : T) (fs : FS)
  : option error * FS :=
  let key := strings.ToLower key in
  let path := filepath.Join (dir storage) (url.PathEscape key ++ ".json") in
  let '(err, fs) :=
    fstools.WriteFileFunc path
      (jsonentry.Encode {| Key := key; Value := value |}) fs in
  match err with
  | Some err =>
    (Some (fmt.Errorf_w ErrInternal
             (": failed to put JSON: " ++ Error err)), fs)
  | None => (None, fs)
  end.

Definition Delete (storage : Storage) (key : string) (fs : FS)
  : option error * FS :=
  let key := strings.ToLower key in
  let path := filepath.Join (dir storage) (url.PathEscape key ++ ".json") in
  let '(err, fs) :=
    if fstools.Exists path fs then osfs.Remove path fs else (None, fs) in
  match err with
  | Some err =>
    (Some (fmt.Errorf_w ErrInternal
             (": failed to delete JSON: " ++ Error err)), fs)
  | None => (None, fs)
  end.

End Operations.

End legacy.

(** ** Payload types used in the examples *)

Module payload.

Import json.

(** Go's [string]. *)
#[export] Instance GoString : JSONType string := {|
  zero := EmptyString;
  marshalJSON s := inr (Str s);
  unmarshalJSON v old :=
    match v with
    | Str s => inr s
    | Null => inr old
    | v => inl ("json: cannot unmarshal " ++ jsonentry.kind v
                ++ " into Go value of type string")
    end
|}.

Definition int64_ok (z : Z) : bool :=
  in_range (- 9223372036854775808) 9223372036854775807 z.

(** A literal made of an optional sign and digits ([strconv.ParseInt]
    accepts nothing else). *)
Definition parse_int (lit : string) : option Z :=
  let digits := match lit with
                | String c r => if byte_val c =? 45 then r else lit
                | _ => lit
                end in
  if forall_bytes isDigit digits then
    match NilZero.int_of_string lit with
    | Some d => if int64_ok (Z.of_int d) then Some (Z.of_int d) else None
    | None => None
    end
  else None.

(** Go's [int] on a 64-bit platform. *)
#[export] Instance GoInt : JSONType Z := {|
  zero := 0;
  marshalJSON n := inr (Number (NilZero.string_of_int (Z.to_int n)));
  unmarshalJSON v old :=
    match v with
    | Number lit =>
      match parse_int lit with
      | Some n => inr n
      | None => inl ("json: cannot unmarshal number " ++ lit
                     ++ " into Go value of type int")
      end
    | Null => inr old
    | v => inl ("json: cannot unmarshal " ++ jsonentry.kind v
                ++ " into Go value of type int")
    end
|}.

(** A case table that covers the Latin-1 letters and leaves every other
    rune alone. *)
#[export] Instance latin1 : UnicodeTables := {|
  lower_table r :=
    if in_range 192 222 r && negb (r =? 215) then r + 32 else r
|}.

End payload.

(** * Properties of the store *)

Import jsonstorage.

(** ** Vocabulary of the statements *)

(** The file a key is kept in. *)
Definition mapped_path `{UnicodeTables} (storage : Storage) (key : string)
  : string :=
  filepath.Join (dir storage)
    (url.PathEscape (strings.ToLower key) ++ ".json").

(** What reading and decoding the file of [key] gives. *)
Definition stored `{UnicodeTables} {T : Type} `{JSONType T}
    (storage : Storage) (key : string) (fs : FS) : entry T * option error :=
  fstools.ReadFileFunc (mapped_path storage key) jsonentry.Decode fs
    empty_entry.

(** No file exists at [path]: [stat] reports [ENOENT]. *)
Definition absent (path : string) (fs : FS) : Prop :=
  fsys.stat path fs = inl ENOENT.

(** The encoding of the envelope of [v] decodes back to [v]. *)
Definition decodes_back {T : Type} `{JSONType T} (key : string) (v : T)
  : Prop :=
  forall data, jsonentry.Encode {| Key := key; Value := v |} = (data, None) ->
    exists ent, jsonentry.Decode (inr data) empty_entry = (ent, None)
                /\ Value ent = v.

(** A transform and a visitor that count their invocations in the state
    they capture. *)
Definition counted_transform {T U : Type} (f : T -> U -> (T * option error) * U)
  : T -> nat * U -> (T * option error) * (nat * U) :=
  fun v '(n, u) => let '(r, u') := f v u in (r, (S n, u')).

Definition counted_visitor {T U : Type} (f : string -> T -> U -> option error * U)
  : string -> T -> nat * U -> option error * (nat * U) :=
  fun k v '(n, u) => let '(r, u') := f k v u in (r, (S n, u')).




(** Two keys differ at most in the case of their letters: rune by rune,
    they have the same lower case. *)
Definition same_letters `{UnicodeTables} (k1 k2 : string) : Prop :=
  map unicode.ToLower (utf8.runes k1) = map unicode.ToLower (utf8.runes k2).

(** Two paths name the same file of the same directory. *)
Definition same_file (p q : string) : Prop :=
  filepath.Dir p = filepath.Dir q
  /\ snd (filepath.Split p) = snd (filepath.Split q).

(** ** Vocabulary of the further properties *)

(** No byte of [s] is a path separator. *)
Definition no_sep (s : string) : bool :=
  forall_bytes (fun c => negb (filepath.is_sep c)) s.

(** A name that [Clean] keeps as it is: one element, neither empty nor a
    dot element. *)
Definition plain_name (n : string) : Prop :=
  no_sep n = true /\ n <> "" /\ n <> "." /\ n <> "..".

(** The name of the file of a key, inside the directory of the store. *)
Definition file_name `{UnicodeTables} (key : string) : string :=
  url.PathEscape (strings.ToLower key) ++ ".json".

(** The elements [Clean] has kept so far, innermost first: none is empty
    or a single dot, none holds a separator, and the double dots lie at
    the bottom, of a path that is not rooted. *)
Fixpoint kept (rooted : bool) (out : list string) : Prop :=
  match out with
  | [] => True
  | e :: below =>
    no_sep e = true /\ e <> "" /\ e <> "."
    /\ (e = ".." -> rooted = false /\ Forall (eq "..") below)
    /\ kept rooted below
  end.

(** The entries [Range] reads: not a directory, with the extension
    [.json]. *)
Definition is_entry (direntry : DirEntry) : bool :=
  negb (IsDir direntry) && String.eqb (filepath.Ext (Name direntry)) ".json".

(** The byte two digits of an escape stand for. *)
Definition unhex (hi lo : ascii) : ascii :=
  match json.hexval hi, json.hexval lo with
  | Some h, Some l => byte_chr (h * 16 + l)
  | _, _ => hi
  end.

(** [Clean] in two steps: the elements it keeps, and the path they are
    written as. *)
Definition rooted (path : string) : bool :=
  match path with
  | String c _ => filepath.is_sep c
  | EmptyString => false
  end.

Definition kept_of (path : string) : list string :=
  fold_left (filepath.clean_step (rooted path)) (filepath.split path) [].

Definition render (is_rooted : bool) (elems : list string) : string :=
  let out := filepath.join elems in
  if is_rooted then "/" ++ out
  else if String.eqb out "" then "." else out.

(** The directory of the store holds no entry: it does not exist yet, or
    it is empty. *)
Definition no_entries (storage : Storage) (fs : FS) : Prop :=
  fs !! filepath.Clean (dir storage) = None
  \/ fs !! filepath.Clean (dir storage) = Some (Present ∅).

(** ** Concrete stores used in the examples *)

Module examples.

Import payload.

Definition data_store : Storage := New "data".

(** [0xFF], a byte that is not UTF-8. *)
Definition not_utf8 : string := str1 (byte_chr 255).

(** U+FFFD, the replacement rune, in UTF-8. *)
Definition replacement : string := utf8.EncodeRune utf8.RuneError.

Definition quoted (s : string) : string :=
  String json.dquote (s ++ str1 json.dquote).


(** The text [{"key":"other","value":7}]. *)
Definition other_key : string :=
  "{" ++ quoted "key" ++ ":" ++ quoted "other" ++ ","
      ++ quoted "value" ++ ":7}".

Definition one_file (name data : string) : FS :=
  {[ "data" := Present {[ name := File data ]} ]}.

Definition boom : error := errors.New 99 "boom".

Definition failing (v : Z) (calls : nat) : (Z * option error) * nat :=
  ((v + 1, Some boom), S calls).

Definition increment (v : Z) (calls : nat) : (Z * option error) * nat :=
  ((v + 1, None), S calls).

Definition collect (k : string) (v : Z) (seen : list (string * Z))
  : option error * list (string * Z) :=
  (None, (k, v) :: seen).

(** A visitor that gives up with the sentinel of the package. *)
Definition stop_NotExist (k : string) (v : Z) (calls : nat) : option error * nat :=
  (Some ErrNotExist, S calls).

(** The store after [Put("Foo", 5)] on an empty disk. *)
Definition with_foo : FS := snd (Put data_store "Foo" 5 ∅).

End examples.

Import payload examples.

(** ** Further concrete stores *)

Module more_examples.

Import payload examples.


(** The store after [Put("Foo", 5)] and [Put("foo", 6)]. *)
Definition with_foo_6 : FS := snd (Put data_store "foo" 6 with_foo).

(** The directory of the store, emptied. *)
Definition emptied : FS := {[ "data" := Present ∅ ]}.

End more_examples.

Import more_examples.

(** ** The file system model *)

Section FileSystem.

Lemma lookup_bind_same path n fs children :
  fs !! filepath.Dir path = Some (Present children) ->
  fsys.lookup path (fsys.bind path (Some n) fs) = inr n.
Proof.
  intros Hd. unfold fsys.lookup, fsys.bind. rewrite Hd.
  rewrite lookup_insert_eq. by rewrite lookup_insert_eq.
Qed.

(** A write that reports success stored what the callback wrote. *)
Lemma WriteFileFunc_success path w fs fs' :
  fstools.WriteFileFunc path w fs = (None, fs') ->
  exists data, w = (data, None) /\ fsys.lookup path fs' = inr (File data).
Proof.
  unfold fstools.WriteFileFunc. destruct w as [data [err|]].
  - destruct (fs !! filepath.Dir path) as [[e|ch]|];
      destruct (fsys.lookup path fs) as [e'|[d|b| |]]; discriminate.
  - intros Hw. exists data. split; [done|].
    destruct (fs !! filepath.Dir path) as [[e|ch]|] eqn:Hd.
    + destruct (fsys.lookup path fs) as [e'|[d|b| |]]; discriminate.
    + assert (fs' = fsys.bind path (Some (File data)) fs) as ->.
      { destruct (fsys.lookup path fs) as [e'|[d|b| |]]; congruence. }
      by eapply lookup_bind_same.
    + assert (fs' = <[filepath.Dir path :=
                 Present {[snd (filepath.Split path) := File data]}]> fs) as ->.
      { destruct (fsys.lookup path fs) as [e'|[d|b| |]] eqn:Hl;
          try congruence;
          unfold fsys.lookup in Hl; rewrite Hd in Hl; discriminate. }
      unfold fsys.lookup. rewrite lookup_insert_eq.
      by rewrite lookup_singleton_eq.
Qed.

(** A write that reports failure left the files as they were. *)
Lemma WriteFileFunc_failure path w fs fs' e :
  fstools.WriteFileFunc path w fs = (Some e, fs') -> fs' = fs.
Proof.
  unfold fstools.WriteFileFunc. destruct w as [data [err|]];
    destruct (fs !! filepath.Dir path) as [[e0|ch]|];
    destruct (fsys.lookup path fs) as [e'|[d|b| |]]; congruence.
Qed.

Lemma ReadFileFunc_file {A : Type} path data fs
    (f : io.Reader -> A -> A * option error) (a : A) :
  fsys.lookup path fs = inr (File data) ->
  fstools.ReadFileFunc path f fs a = f (inr data) a.
Proof. intros Hl. unfold fstools.ReadFileFunc. by rewrite Hl. Qed.

End FileSystem.

(** ** Reading back what was written *)

Section RoundTrip.

Context `{UnicodeTables} {T : Type} `{JSONType T}.

Lemma Put_success storage k (v : T) fs fs' :
  Put storage k v fs = (None, fs') ->
  exists data,
    jsonentry.Encode {| Key := strings.ToLower k; Value := v |} = (data, None)
    /\ fsys.lookup (mapped_path storage k) fs' = inr (File data).
Proof.
  unfold Put. fold (mapped_path storage k).
  destruct (fstools.WriteFileFunc _ _ fs) as [[e|] fs1] eqn:Hw; [discriminate|].
  intros [= <-]. by apply WriteFileFunc_success in Hw.
Qed.

Lemma Get_stored storage k fs :
  Get (T := T) storage k fs =
  match stored storage k fs with
  | (_, Some err) =>
    if errors.Is err os.ErrNotExist
    then (zero, Some (fmt.Errorf_w ErrNotExist (": " ++ strings.ToLower k)))
    else (zero, Some (fmt.Errorf_w ErrInternal
                        (": failed to get JSON: " ++ Error err)))
  | (ent, None) => (Value ent, None)
  end.
Proof. reflexivity. Qed.

(** [Get] on a file that decodes returns the decoded value. *)
Lemma Get_decoded storage k fs data (ent : entry T) :
  fsys.lookup (mapped_path storage k) fs = inr (File data) ->
  jsonentry.Decode (inr data) empty_entry = (ent, None) ->
  Get storage k fs = (Value ent, None).
Proof.
  intros Hfile Hdec. rewrite Get_stored. unfold stored.
  rewrite (ReadFileFunc_file _ data) by done. by rewrite Hdec.
Qed.

(** C1 (as amended).  For every key [k] and every value [v] whose encoded
    envelope decodes back to [v]: after [Put(k, v)] succeeds, [Get(k)] on
    the same store, with nothing in between, succeeds and returns exactly
    [v]. *)
Theorem Put_then_Get storage k (v : T) fs fs' :
  decodes_back (strings.ToLower k) v ->
  Put storage k v fs = (None, fs') ->
  Get storage k fs' = (v, None).
Proof.
  intros Hrt HPut.
  destruct (Put_success _ _ _ _ _ HPut) as (data & Henc & Hfile).
  destruct (Hrt data Henc) as (ent & Hdec & Hval).
  rewrite <- Hval. by apply Get_decoded with (data := data).
Qed.

End RoundTrip.

(** ** Edit, Range and Get on what is or is not there *)

Section Absence.

Context `{UnicodeTables} {T : Type} `{JSONType T}.

Lemma ReadFileFunc_absent {A : Type} path fs
    (f : io.Reader -> A -> A * option error) (a : A) :
  absent path fs ->
  fstools.ReadFileFunc path f fs a =
  (a, Some (PathError "open" path (syscallErrno ENOENT))).
Proof.
  unfold absent, fsys.stat, fstools.ReadFileFunc.
  destruct (fsys.lookup path fs) as [e|[d|b| |]]; intros Hst;
    try discriminate; [by injection Hst as ->|reflexivity].
Qed.

Lemma Edit_stored {U : Type} storage k
    (f : T -> U -> (T * option error) * U) fs u ent :
  stored storage k fs = (ent, None) ->
  Edit storage k f fs u =
  let '((value, err), u) := f (Value ent) u in
  match err with
  | Some err => ((zero, Some err), fs, u)
  | None =>
    let '(err, fs) :=
      fstools.WriteFileFunc (mapped_path storage k)
        (jsonentry.Encode {| Key := strings.ToLower k; Value := value |}) fs in
    match err with
    | Some err =>
      ((zero, Some (fmt.Errorf_w ErrInternal
                      (": failed to edit JSON: " ++ Error err))), fs, u)
    | None => ((value, None), fs, u)
    end
  end.
Proof.
  unfold stored, mapped_path, Edit. intros ->. reflexivity.
Qed.

(** C2.  When the entry of [k] exists and the transform [f] returns the
    error [e] on its value, [Edit(k, f)] returns [e] itself, not wrapped,
    and writes nothing: the files are those of before, and the value kept
    for [k] is still the one [f] was given. *)
Theorem Edit_transform_error {U : Type} storage k
    (f : T -> U -> (T * option error) * U) fs u ent v' e u' :
  stored storage k fs = (ent, None) ->
  f (Value ent) u = ((v', Some e), u') ->
  Edit storage k f fs u = ((zero, Some e), fs, u')
  /\ Get storage k fs = (Value ent, None).
Proof.
  intros Hs Hf. split.
  - rewrite (Edit_stored _ _ _ _ _ _ Hs), Hf. reflexivity.
  - rewrite Get_stored, Hs. reflexivity.
Qed.

(** C5.  When no file exists at the path of [k], [Edit(k, f)] fails with
    an error that is [ErrNotExist], the files are left as they were, and
    [f] is not invoked: the state its closure captured is untouched, and a
    transform that counts its invocations still reads zero. *)
Theorem Edit_absent {U : Type} storage k
    (f : T -> U -> (T * option error) * U) fs u :
  absent (mapped_path storage k) fs ->
  Edit storage k f fs u =
    ((zero, Some (fmt.Errorf_w ErrNotExist (": " ++ strings.ToLower k))),
     fs, u)
  /\ errors.Is (fmt.Errorf_w ErrNotExist (": " ++ strings.ToLower k))
       ErrNotExist = true
  /\ snd (Edit storage k (counted_transform f) fs (0%nat, u)) = (0%nat, u).
Proof.
  intros Habs.
  assert (forall V (g : T -> V -> (T * option error) * V) (w : V),
    Edit storage k g fs w =
    ((zero, Some (fmt.Errorf_w ErrNotExist (": " ++ strings.ToLower k))),
     fs, w)) as HE.
  { intros V g w. unfold Edit. fold (mapped_path storage k).
    rewrite (ReadFileFunc_absent _ _ _ _ Habs). reflexivity. }
  split; [apply HE|]. split; [reflexivity|]. by rewrite HE.
Qed.

(** C6.  When the directory of the store does not exist, [Range(f)]
    returns nil and does not invoke [f]: the state of the visitor is
    untouched, and a visitor that counts its invocations still reads
    zero. *)
Theorem Range_missing_directory {U : Type} storage
    (f : string -> T -> U -> option error * U) fs u :
  fs !! filepath.Clean (dir storage) = None ->
  Range storage f fs u = (None, u)
  /\ Range storage (counted_visitor f) fs (0%nat, u) = (None, (0%nat, u)).
Proof.
  intros Hd.
  assert (forall V (g : string -> T -> V -> option error * V) (w : V),
    Range storage g fs w = (None, w)) as HR.
  { intros V g w. unfold Range, fstools.ReadDir.
    destruct (String.eqb (dir storage) ""); [reflexivity|].
    rewrite Hd. reflexivity. }
  split; apply HR.
Qed.

(** C10.  [Get(k)] returns the [value] field of whatever entry the file at
    the path of [k] decodes to; the [key] field [key'] of that entry is
    not compared with [k], so an envelope that carries any other key gives
    its value all the same.  The older store does the same. *)
Theorem Get_ignores_stored_key storage k fs data key' (v : T) :
  fsys.lookup (mapped_path storage k) fs = inr (File data) ->
  jsonentry.Decode (inr data) empty_entry
    = ({| Key := key'; Value := v |}, None) ->
  Get storage k fs = (v, None)
  /\ legacy.Get (legacy.New (dir storage)) k fs = (v, None).
Proof.
  intros Hfile Hdec. split.
  - by apply (Get_decoded _ _ _ data {| Key := key'; Value := v |}).
  - unfold legacy.Get, legacy.get. cbn [legacy.dir legacy.New].
    fold (mapped_path storage k).
    rewrite (ReadFileFunc_file _ data) by done.
    unfold empty_entry in Hdec. by rewrite Hdec.
Qed.

End Absence.

(** ** The two stores *)

Section Equivalence.

Context `{UnicodeTables} {T : Type} `{JSONType T}.

Lemma legacy_range_loop {U : Type} d
    (f : string -> T -> U -> option error * U) fs direntries u :
  legacy.range_loop (legacy.New d) f fs direntries u
  = range_loop (New d) f fs direntries u.
Proof.
  revert u. induction direntries as [|direntry rest IH]; intros u; cbn.
  - reflexivity.
  - destruct (IsDir direntry); [apply IH|].
    destruct (negb _); [apply IH|].
    unfold legacy.get, empty_entry.
    destruct (fstools.ReadFileFunc _ _ fs _) as [ent [err|]].
    + destruct (errors.Is err os.ErrNotExist); [apply IH|reflexivity].
    + destruct (f (Key ent) (Value ent) u) as [[err|] u']; [reflexivity|].
      apply IH.
Qed.

(** C9.  On the operations they share, the store of [storage.go] and the
    older store return the same results and leave the same files, for
    every directory, key, value, callback and file system. *)
Theorem legacy_equivalent (d : string) :
  (forall (U : Type) (f : string -> T -> U -> option error * U) fs u,
     legacy.Range (legacy.New d) f fs u = Range (New d) f fs u)
  /\ (forall k fs, legacy.Get (T := T) (legacy.New d) k fs = Get (New d) k fs)
  /\ (forall k (v : T) fs,
        legacy.Put (legacy.New d) k v fs = Put (New d) k v fs)
  /\ (forall k fs, legacy.Delete (legacy.New d) k fs = Delete (New d) k fs).
Proof.
  split; [|split; [|split]].
  - intros U f fs u. unfold legacy.Range, Range. cbn [legacy.dir legacy.New dir New].
    destruct (fstools.ReadDir d fs) as [direntries [err|]]; [reflexivity|].
    apply legacy_range_loop.
  - intros k fs. reflexivity.
  - intros k v fs. reflexivity.
  - intros k fs. unfold legacy.Delete, Delete. cbn [legacy.dir legacy.New dir New].
    destruct (fstools.Exists _ fs); reflexivity.
Qed.

End Equivalence.

(** ** Classification of errors *)

Section Errors.

Context `{UnicodeTables} {T : Type} `{JSONType T}.

Lemma Is_open_error path e :
  errors.Is (PathError "open" path (syscallErrno e)) os.ErrNotExist
  = bool_decide (e = ENOENT).
Proof. destruct e; reflexivity. Qed.

Lemma Is_Internal_NotExist tail :
  errors.Is (fmt.Errorf_w ErrInternal tail) ErrNotExist = false.
Proof. reflexivity. Qed.

Lemma Is_Internal tail :
  errors.Is (fmt.Errorf_w ErrInternal tail) ErrInternal = true.
Proof. reflexivity. Qed.

Lemma Is_NotExist tail :
  errors.Is (fmt.Errorf_w ErrNotExist tail) ErrNotExist = true.
Proof. reflexivity. Qed.






Lemma stored_ok_present storage k fs (ent : entry T) :
  stored storage k fs = (ent, None) -> ~ absent (mapped_path storage k) fs.
Proof.
  unfold stored, fstools.ReadFileFunc, absent, fsys.stat.
  destruct (fsys.lookup (mapped_path storage k) fs) as [e|[data|b| |]];
    discriminate.
Qed.


End Errors.

(** ** Where a NotExist error can come from *)

Section NotExist.

Context `{UnicodeTables} {T : Type} `{JSONType T}.

Lemma absent_not_Exists path fs : absent path fs -> fstools.Exists path fs = false.
Proof. unfold absent, fstools.Exists. by intros ->. Qed.

Lemma lookup_bound path fs n :
  fsys.lookup path fs = inr n ->
  exists children, fs !! filepath.Dir path = Some (Present children).
Proof.
  unfold fsys.lookup.
  destruct (fs !! filepath.Dir path) as [[e|children]|]; try discriminate.
  by exists children.
Qed.

Lemma lookup_unbound path fs children :
  fs !! filepath.Dir path = Some (Present children) ->
  fsys.lookup path (fsys.bind path None fs) = inl ENOENT.
Proof.
  intros Hd. unfold fsys.lookup, fsys.bind. rewrite Hd.
  by rewrite lookup_insert_eq, lookup_delete_eq.
Qed.

(** What [os.Remove] removed is no longer there. *)
Lemma Remove_absent path fs fs' :
  osfs.Remove path fs = (None, fs') -> absent path fs'.
Proof.
  unfold osfs.Remove, absent, fsys.stat.
  destruct (fsys.lookup path fs) as [e|n] eqn:Hl; [discriminate|].
  destruct (lookup_bound _ _ _ Hl) as [children Hd].
  destruct n as [data|[|]| |]; intros Hr; try discriminate;
    injection Hr as <-; by rewrite (lookup_unbound _ _ _ Hd).
Qed.

Lemma range_loop_NotExist {U : Type} storage
    (f : string -> T -> U -> option error * U) fs direntries u e :
  fst (range_loop storage f fs direntries u) = Some e ->
  errors.Is e ErrNotExist = true ->
  exists k v u0, fst (f k v u0) = Some e.
Proof.
  revert u. induction direntries as [|direntry rest IH]; intros u; cbn.
  - discriminate.
  - destruct (IsDir direntry); [apply IH|].
    destruct (negb _); [apply IH|].
    destruct (fstools.ReadFileFunc _ _ fs _) as [ent [err|]].
    + destruct (errors.Is err os.ErrNotExist); [apply IH|].
      cbn. intros [= <-]. discriminate.
    + destruct (f (Key ent) (Value ent) u) as [[err|] u'] eqn:Hf.
      * cbn. intros [= <-] _. exists (Key ent), (Value ent), u.
        by rewrite Hf.
      * apply IH.
Qed.

(** C7 (as amended).  [Put] and [Delete] never return an error that is
    [ErrNotExist], and [Range] returns one only when its visitor returned
    that very error; [Delete] treats an absent file as success and leaves
    the files as they were, so that a [Delete] that succeeded succeeds
    again; [Range] passes over a listed entry whose file is absent. *)
Theorem NotExist_only_from_visitor storage :
  (forall k (v : T) fs e,
     fst (Put storage k v fs) = Some e -> errors.Is e ErrNotExist = false)
  /\ (forall k fs e,
        fst (Delete storage k fs) = Some e -> errors.Is e ErrNotExist = false)
  /\ (forall k fs,
        absent (mapped_path storage k) fs -> Delete storage k fs = (None, fs))
  /\ (forall k fs fs',
        Delete storage k fs = (None, fs') -> Delete storage k fs' = (None, fs'))
  /\ (forall (U : Type) (f : string -> T -> U -> option error * U) fs u e,
        fst (Range storage f fs u) = Some e ->
        errors.Is e ErrNotExist = true ->
        exists k v u0, fst (f k v u0) = Some e)
  /\ (forall (U : Type) (f : string -> T -> U -> option error * U) fs
             direntry rest u,
        absent (filepath.Join (dir storage) (Name direntry)) fs ->
        range_loop storage f fs (direntry :: rest) u
        = range_loop storage f fs rest u).
Proof.
  assert (forall k fs,
    absent (mapped_path storage k) fs -> Delete storage k fs = (None, fs))
    as Hgone.
  { intros k fs Habs. unfold Delete. fold (mapped_path storage k).
    by rewrite (absent_not_Exists _ _ Habs). }
  split; [|split; [|split; [|split; [|split]]]].
  - intros k v fs e. unfold Put.
    destruct (fstools.WriteFileFunc _ _ fs) as [[err|] fs1]; cbn;
      [|discriminate].
    intros [= <-]. reflexivity.
  - intros k fs e. unfold Delete.
    destruct (fstools.Exists _ fs); [|discriminate].
    destruct (osfs.Remove _ fs) as [[err|] fs1]; cbn; [|discriminate].
    intros [= <-]. reflexivity.
  - exact Hgone.
  - intros k fs fs'. unfold Delete. fold (mapped_path storage k).
    destruct (fstools.Exists (mapped_path storage k) fs) eqn:Hex.
    + destruct (osfs.Remove _ fs) as [[err|] fs1] eqn:Hr; [discriminate|].
      intros [= <-]. fold (mapped_path storage k) in Hgone.
      apply Hgone. by eapply Remove_absent.
    + intros [= <-]. by rewrite Hex.
  - intros U f fs u e. unfold Range.
    destruct (fstools.ReadDir (dir storage) fs) as [direntries [err|]].
    + destruct (errors.Is err os.ErrNotExist); cbn; [discriminate|].
      intros [= <-]. discriminate.
    + apply range_loop_NotExist.
  - intros U f fs direntry rest u Habs. cbn.
    destruct (IsDir direntry); [reflexivity|].
    destruct (negb _); [reflexivity|].
    rewrite (ReadFileFunc_absent _ _ _ _ Habs), Is_open_error.
    reflexivity.
Qed.

End NotExist.

(** ** What the decoder accepts *)

Section Decoding.

Context `{UnicodeTables} {T : Type} `{JSONType T}.






End Decoding.

(** ** Keys that differ in letter case *)

Section LetterCase.

Context `{UnicodeTables}.

Lemma lower_ascii_rune c :
  strings.isASCIIByte c = true ->
  0 <= unicode.ToLower (byte_val c)
  /\ utf8.EncodeRune (unicode.ToLower (byte_val c)) = str1 (strings.lowerByte c).
Proof.
  intros Hc.
  destruct c as [[] [] [] [] [] [] [] []]; vm_compute in Hc;
    try discriminate; vm_compute; (split; [discriminate|reflexivity]).
Qed.

Lemma lowerByte_not_upper c :
  strings.isUpperByte c = false -> strings.lowerByte c = c.
Proof. unfold strings.lowerByte. by intros ->. Qed.

Lemma Map_ToLower_ascii s :
  forall_bytes strings.isASCIIByte s = true ->
  strings.Map unicode.ToLower s = map_bytes strings.lowerByte s.
Proof.
  unfold strings.Map, utf8.runes.
  induction s as [|c s IH]; [reflexivity|]. cbn [forall_bytes].
  intros [Hc Hs]%andb_prop. specialize (IH Hs).
  destruct (lower_ascii_rune c Hc) as [Hpos Henc].
  assert (utf8.DecodeRune (String c s) = (byte_val c, 1%nat)) as Hd.
  { unfold strings.isASCIIByte, utf8.RuneSelf in Hc.
    unfold utf8.DecodeRune. by rewrite Hc. }
  cbn [utf8.runes_from]. rewrite Hd. cbn [Nat.sub map].
  rewrite filter_cons_True by done.
  cbn [utf8.encode_all map_bytes]. by rewrite Henc, IH.
Qed.

Lemma map_lowerByte_no_upper s :
  exists_bytes strings.isUpperByte s = false ->
  map_bytes strings.lowerByte s = s.
Proof.
  induction s as [|c s IH]; [reflexivity|]. cbn.
  intros [Hc Hs]%orb_false_elim.
  by rewrite (lowerByte_not_upper _ Hc), IH.
Qed.

(** The fast path of [ToLower] computes what [Map] computes. *)
Lemma ToLower_Map s : strings.ToLower s = strings.Map unicode.ToLower s.
Proof.
  unfold strings.ToLower.
  destruct (forall_bytes strings.isASCIIByte s) eqn:Ha; [|reflexivity].
  rewrite (Map_ToLower_ascii _ Ha).
  destruct (exists_bytes strings.isUpperByte s) eqn:Hu; cbn; [reflexivity|].
  by rewrite map_lowerByte_no_upper.
Qed.

Lemma same_letters_ToLower k1 k2 :
  same_letters k1 k2 -> strings.ToLower k1 = strings.ToLower k2.
Proof.
  unfold same_letters. intros Heq. rewrite !ToLower_Map.
  unfold strings.Map. by rewrite Heq.
Qed.

Lemma same_letters_path storage k1 k2 :
  same_letters k1 k2 -> mapped_path storage k1 = mapped_path storage k2.
Proof.
  intros Heq. unfold mapped_path. by rewrite (same_letters_ToLower _ _ Heq).
Qed.

(** A successful write changes the file it names and nothing else. *)
Lemma WriteFileFunc_frame path w fs fs' other :
  fstools.WriteFileFunc path w fs = (None, fs') ->
  ~ same_file other path ->
  fsys.lookup other fs' = fsys.lookup other fs.
Proof.
  unfold same_file, fstools.WriteFileFunc. intros Hw Hne.
  destruct w as [data [err|]].
  { destruct (fs !! filepath.Dir path) as [[e|ch]|];
      destruct (fsys.lookup path fs) as [e'|[d|b| |]]; discriminate. }
  destruct (fs !! filepath.Dir path) as [[e|ch]|] eqn:Hd.
  - destruct (fsys.lookup path fs) as [e'|[d|b| |]]; discriminate.
  - assert (fs' = fsys.bind path (Some (File data)) fs) as ->.
    { destruct (fsys.lookup path fs) as [e'|[d|b| |]]; congruence. }
    unfold fsys.bind, fsys.lookup. rewrite Hd.
    destruct (decide (filepath.Dir other = filepath.Dir path)) as [Heq|Hdir].
    + rewrite Heq, lookup_insert_eq, Hd.
      rewrite lookup_insert_ne; [done|]. intros Hb. by apply Hne.
    + by rewrite lookup_insert_ne.
  - assert (fs' = <[filepath.Dir path :=
               Present {[snd (filepath.Split path) := File data]}]> fs) as ->.
    { destruct (fsys.lookup path fs) as [e'|[d|b| |]] eqn:Hl;
        try congruence;
        unfold fsys.lookup in Hl; rewrite Hd in Hl; discriminate. }
    unfold fsys.lookup.
    destruct (decide (filepath.Dir other = filepath.Dir path)) as [Heq|Hdir].
    + rewrite Heq, lookup_insert_eq, Hd.
      rewrite lookup_singleton_ne; [done|]. intros Hb. by apply Hne.
    + by rewrite lookup_insert_ne.
Qed.

Context {T : Type} `{JSONType T}.

(** C3 (as amended).  For every value [v] whose encoded envelope decodes
    back to [v]: after [Put("Foo", v)] succeeds, [Get("foo")] and
    [Get("FOO")] succeed and return [v]; the three keys have one path, the
    file at that path is the only one the [Put] changed; and any two keys
    that differ only in letter case map to the same path, the directory
    joined with the escaped lower-case key and [.json], so that [Put] and
    [Get] cannot tell them apart. *)
Theorem Put_Foo_Get_any_case storage (v : T) fs fs' :
  decodes_back "foo" v ->
  Put storage "Foo" v fs = (None, fs') ->
  Get storage "foo" fs' = (v, None)
  /\ Get storage "FOO" fs' = (v, None)
  /\ mapped_path storage "Foo" = filepath.Join (dir storage) "foo.json"
  /\ mapped_path storage "foo" = mapped_path storage "Foo"
  /\ mapped_path storage "FOO" = mapped_path storage "Foo"
  /\ (exists data, fsys.lookup (mapped_path storage "Foo") fs'
                   = inr (File data))
  /\ (forall other, ~ same_file other (mapped_path storage "Foo") ->
        fsys.lookup other fs' = fsys.lookup other fs)
  /\ (forall k1 k2, same_letters k1 k2 ->
        mapped_path storage k1 = mapped_path storage k2
        /\ mapped_path storage k1
           = filepath.Join (dir storage)
               (url.PathEscape (strings.ToLower k1) ++ ".json")
        /\ (forall (w : T) fs0,
              Put storage k1 w fs0 = Put storage k2 w fs0
              /\ Get (T := T) storage k1 fs0 = Get storage k2 fs0)).
Proof.
  intros Hrt HPut.
  destruct (Put_success _ _ _ _ _ HPut) as (data & Henc & Hfile).
  destruct (Hrt data Henc) as (ent & Hdec & Hval).
  assert (Get storage "Foo" fs' = (v, None)) as HG.
  { rewrite <- Hval. by apply Get_decoded with (data := data). }
  split; [exact HG|]. split; [exact HG|].
  split; [reflexivity|]. split; [reflexivity|]. split; [reflexivity|].
  split; [|split].
  - by exists data.
  - intros other Hne. unfold Put in HPut. fold (mapped_path storage "Foo") in HPut.
    destruct (fstools.WriteFileFunc _ _ fs) as [[e|] fs1] eqn:Hw; [discriminate|].
    injection HPut as <-. by eapply WriteFileFunc_frame.
  - intros k1 k2 Heq. split; [by apply same_letters_path|].
    split; [reflexivity|]. intros w fs0. unfold Put, Get.
    by rewrite (same_letters_ToLower _ _ Heq).
Qed.

End LetterCase.

(** ** Paths *)

Section Paths.

Lemma str_app_cons c (a b : string) : String c a ++ b = String c (a ++ b).
Proof. reflexivity. Qed.

Lemma str_app_assoc (a b c : string) : (a ++ b) ++ c = a ++ (b ++ c).
Proof.
  induction a as [|x a IH]; [reflexivity|].
  by rewrite !str_app_cons, IH.
Qed.

Lemma str_length_app (a b : string) :
  String.length (a ++ b) = (String.length a + String.length b)%nat.
Proof.
  induction a as [|x a IH]; [reflexivity|].
  rewrite str_app_cons. cbn [String.length]. by rewrite IH.
Qed.

Lemma str_app_inj_r (a b s : string) : a ++ s = b ++ s -> a = b.
Proof.
  revert b. induction a as [|x a IH]; intros [|y b] Heq.
  - reflexivity.
  - apply (f_equal String.length) in Heq.
    rewrite !str_length_app in Heq. cbn in Heq. lia.
  - apply (f_equal String.length) in Heq.
    rewrite !str_length_app in Heq. cbn in Heq. lia.
  - rewrite !str_app_cons in Heq. injection Heq as -> Heq.
    by rewrite (IH b Heq).
Qed.

Lemma forall_bytes_app p (a b : string) :
  forall_bytes p (a ++ b) = forall_bytes p a && forall_bytes p b.
Proof.
  induction a as [|x a IH]; [reflexivity|].
  rewrite str_app_cons. cbn [forall_bytes]. by rewrite IH, andb_assoc.
Qed.

Lemma split_not_nil s : filepath.split s <> [].
Proof.
  destruct s as [|c s]; cbn; [done|].
  destruct (filepath.is_sep c); [done|].
  by destruct (filepath.split s).
Qed.

Lemma split_no_sep n : no_sep n = true -> filepath.split n = [n].
Proof.
  unfold no_sep. induction n as [|c n IH]; cbn; [reflexivity|].
  intros [Hc Hn]%andb_prop. apply negb_true_iff in Hc. rewrite Hc.
  by rewrite (IH Hn).
Qed.

Lemma split_app_sep a b :
  filepath.split (a ++ String "/" b)
  = (filepath.split a ++ filepath.split b)%list.
Proof.
  induction a as [|c a IH]; [reflexivity|].
  rewrite str_app_cons. cbn [filepath.split].
  destruct (filepath.is_sep c); [by rewrite IH|].
  rewrite IH. pose proof (split_not_nil a) as Hne.
  by destruct (filepath.split a).
Qed.

Lemma split_elements_no_sep s :
  Forall (fun e => no_sep e = true) (filepath.split s).
Proof.
  induction s as [|c s IH]; cbn; [by constructor|].
  destruct (filepath.is_sep c) eqn:Hc; [by constructor|].
  pose proof (split_not_nil s) as Hne.
  destruct (filepath.split s) as [|h t]; [done|].
  inversion IH as [|? ? Hh Ht]; subst. constructor; [|done].
  unfold no_sep in *. cbn. by rewrite Hc.
Qed.

Lemma Split_no_sep n : no_sep n = true -> filepath.Split n = ("", n).
Proof.
  unfold no_sep. induction n as [|c n IH]; cbn; [reflexivity|].
  intros [Hc Hn]%andb_prop. apply negb_true_iff in Hc.
  by rewrite (IH Hn), Hc.
Qed.

Lemma Split_app_sep a n :
  no_sep n = true ->
  filepath.Split (a ++ String "/" n) = (a ++ "/", n).
Proof.
  intros Hn. induction a as [|c a IH].
  - change ("" ++ String "/" n) with (String "/" n).
    cbn [filepath.Split]. by rewrite (Split_no_sep _ Hn).
  - rewrite !str_app_cons. cbn [filepath.Split]. rewrite IH.
    destruct (filepath.is_sep c); [reflexivity|].
    by destruct a.
Qed.

Lemma join_snoc l n :
  l <> [] -> filepath.join (l ++ [n])%list = filepath.join l ++ "/" ++ n.
Proof.
  induction l as [|e l IH]; [done|]. intros _.
  destruct l as [|e' l]; [reflexivity|].
  change (filepath.join ((e :: e' :: l) ++ [n])%list)
    with (e ++ "/" ++ filepath.join ((e' :: l) ++ [n])%list).
  rewrite IH by done.
  change (filepath.join (e :: e' :: l))
    with (e ++ "/" ++ filepath.join (e' :: l)).
  by rewrite !str_app_assoc.
Qed.

End Paths.

Section Clean.

Lemma Clean_render path :
  filepath.Clean path = render (rooted path) (rev (kept_of path)).
Proof. by destruct path. Qed.

Lemma clean_step_plain r out n :
  plain_name n -> filepath.clean_step r out n = n :: out.
Proof.
  intros (_ & H0 & H1 & H2). unfold filepath.clean_step.
  apply String.eqb_neq in H0, H1, H2. by rewrite H0, H1, H2.
Qed.

Lemma kept_step r out e :
  kept r out -> no_sep e = true -> kept r (filepath.clean_step r out e).
Proof.
  intros Hk He. unfold filepath.clean_step.
  destruct (String.eqb e "") eqn:H0; [done|].
  destruct (String.eqb e ".") eqn:H1; [done|]. cbn [orb].
  apply String.eqb_neq in H0, H1.
  destruct (String.eqb e "..") eqn:H2.
  - apply String.eqb_eq in H2 as ->.
    destruct out as [|top below].
    + destruct r eqn:Hr; [done|]. cbn. repeat split; auto.
    + cbn in Hk. destruct Hk as (Ht & Ht0 & Ht1 & Hdots & Hbelow).
      destruct (String.eqb top "..") eqn:Htop; [|done].
      apply String.eqb_eq in Htop as ->.
      destruct (Hdots eq_refl) as [Hr Hall].
      cbn. repeat split; auto.
  - apply String.eqb_neq in H2. cbn. repeat split; auto; done.
Qed.

Lemma kept_fold r elems out :
  kept r out -> Forall (fun e => no_sep e = true) elems ->
  kept r (fold_left (filepath.clean_step r) elems out).
Proof.
  revert out. induction elems as [|e elems IH]; intros out Hk Hall; [done|].
  inversion Hall; subst. cbn. apply IH; [by apply kept_step|done].
Qed.

Lemma kept_kept_of path : kept (rooted path) (kept_of path).
Proof. apply kept_fold; [done|apply split_elements_no_sep]. Qed.

(** Cleaning what was kept keeps all of it. *)
Lemma kept_stable r out :
  kept r out -> fold_left (filepath.clean_step r) (rev out) [] = out.
Proof.
  induction out as [|e below IH]; [done|].
  intros (He & H0 & H1 & Hdots & Hbelow). cbn [rev].
  rewrite fold_left_app. cbn [fold_left]. rewrite (IH Hbelow).
  unfold filepath.clean_step.
  apply String.eqb_neq in H0, H1. rewrite H0, H1. cbn [orb].
  destruct (String.eqb e "..") eqn:H2; [|done].
  apply String.eqb_eq in H2 as ->. destruct (Hdots eq_refl) as [-> Hall].
  destruct below as [|top below]; [done|].
  inversion Hall; subst. done.
Qed.

Lemma kept_elements r out :
  kept r out -> Forall (fun e => no_sep e = true /\ e <> "") out.
Proof.
  induction out as [|e below IH]; [by constructor|].
  intros (He & H0 & _ & _ & Hbelow). constructor; [done|by apply IH].
Qed.

Lemma kept_elements_rev r out :
  kept r out -> Forall (fun e => no_sep e = true /\ e <> "") (rev out).
Proof. intros Hk. apply Forall_rev. by eapply kept_elements. Qed.

Lemma split_join l :
  l <> [] -> Forall (fun e => no_sep e = true /\ e <> "") l ->
  filepath.split (filepath.join l) = l.
Proof.
  induction l as [|e l IH]; [done|]. intros _ Hall.
  inversion Hall as [|? ? [He _] Hl]; subst.
  destruct l as [|e' l]; [by apply split_no_sep|].
  change (filepath.join (e :: e' :: l))
    with (e ++ String "/" (filepath.join (e' :: l))).
  rewrite split_app_sep, (split_no_sep _ He), IH by done. done.
Qed.

Lemma join_first l :
  l <> [] -> Forall (fun e => no_sep e = true /\ e <> "") l ->
  exists c s, filepath.join l = String c s /\ filepath.is_sep c = false.
Proof.
  destruct l as [|e l]; [done|]. intros _ Hall.
  inversion Hall as [|? ? [He H0] Hl]; subst.
  destruct e as [|c e]; [done|]. unfold no_sep in He. cbn in He.
  apply andb_prop in He as [Hc _]. apply negb_true_iff in Hc.
  destruct l as [|e' l].
  - by exists c, e.
  - exists c, (e ++ "/" ++ filepath.join (e' :: l)). done.
Qed.

Lemma rooted_app path rest :
  path <> "" -> rooted (path ++ rest) = rooted path.
Proof. by destruct path. Qed.

(** [Join] of a directory and a plain name: the elements kept of the
    directory, then the name. *)
Lemma Join_plain dir n :
  plain_name n ->
  filepath.Join dir n = render (rooted dir) (rev (kept_of dir) ++ [n])%list.
Proof.
  intros Hn. pose proof Hn as (Hs & H0 & _). unfold filepath.Join.
  destruct (String.eqb dir "") eqn:Hd; cbn [negb].
  - apply String.eqb_eq in Hd as ->. apply String.eqb_neq in H0 as H0'.
    rewrite H0'. cbn [negb]. rewrite Clean_render.
    assert (rooted n = false) as ->.
    { destruct n as [|c n]; [done|]. unfold no_sep in Hs. cbn in Hs.
      apply andb_prop in Hs as [Hc _]. by apply negb_true_iff in Hc. }
    unfold kept_of. rewrite (split_no_sep _ Hs). cbn [fold_left].
    by rewrite (clean_step_plain _ _ _ Hn).
  - apply String.eqb_neq in Hd. rewrite Clean_render.
    rewrite (rooted_app _ _ Hd). unfold kept_of at 1.
    rewrite (rooted_app _ _ Hd).
    change (dir ++ "/" ++ n) with (dir ++ String "/" n).
    rewrite split_app_sep, (split_no_sep _ Hs), fold_left_app.
    cbn [fold_left]. fold (kept_of dir).
    by rewrite (clean_step_plain _ _ _ Hn).
Qed.

(** What such a path looks like: the name alone, or something, a
    separator and the name. *)
Lemma render_snoc r l n :
  plain_name n ->
  render r (l ++ [n])%list =
  match l with
  | [] => if r then "/" ++ n else n
  | _ => (if r then "/" ++ filepath.join l else filepath.join l) ++ "/" ++ n
  end.
Proof.
  intros (Hs & H0 & _). unfold render.
  destruct l as [|e l].
  - cbn. apply String.eqb_neq in H0. by rewrite H0.
  - rewrite join_snoc by done. destruct r.
    + by rewrite !str_app_assoc.
    + destruct (String.eqb _ "") eqn:He; [|done].
      apply String.eqb_eq in He. apply (f_equal String.length) in He.
      rewrite !str_length_app in He. cbn in He. lia.
Qed.

(** The last element of the joined path is the name. *)
Lemma Split_Join_name dir n :
  plain_name n -> snd (filepath.Split (filepath.Join dir n)) = n.
Proof.
  intros Hn. pose proof Hn as (Hs & _).
  rewrite (Join_plain _ _ Hn), (render_snoc _ _ _ Hn).
  destruct (rev (kept_of dir)) as [|e l].
  - destruct (rooted dir).
    + change ("/" ++ n) with ("" ++ String "/" n).
      by rewrite (Split_app_sep _ _ Hs).
    + by rewrite (Split_no_sep _ Hs).
  - change (?a ++ "/" ++ n) with (a ++ String "/" n).
    by rewrite (Split_app_sep _ _ Hs).
Qed.

(** Cleaning the kept elements, written as a path and followed by a
    separator, gives the same elements. *)
Lemma kept_of_written r out :
  kept r out -> rev out <> [] ->
  let written := (if r then "/" ++ filepath.join (rev out)
                  else filepath.join (rev out)) ++ "/" in
  rooted written = r /\ kept_of written = out.
Proof.
  intros Hk Hne written.
  pose proof (kept_elements_rev _ _ Hk) as Hel.
  pose proof (kept_stable _ _ Hk) as Hst.
  destruct (join_first _ Hne Hel) as (c & s & Hj & Hc).
  assert (rooted written = r) as Hr.
  { subst written. destruct r; [reflexivity|]. by rewrite Hj. }
  split; [exact Hr|]. unfold kept_of. rewrite Hr. subst written.
  destruct r.
  - change (("/" ++ filepath.join (rev out)) ++ "/")
      with ("" ++ String "/" (filepath.join (rev out) ++ String "/" "")).
    rewrite !split_app_sep, (split_join _ Hne Hel), !fold_left_app.
    exact Hst.
  - change (filepath.join (rev out) ++ "/")
      with (filepath.join (rev out) ++ String "/" "").
    rewrite split_app_sep, (split_join _ Hne Hel), fold_left_app.
    exact Hst.
Qed.

(** The directory of the joined path is the cleaned directory. *)
Lemma Dir_Join dir n :
  plain_name n -> filepath.Dir (filepath.Join dir n) = filepath.Clean dir.
Proof.
  intros Hn. pose proof Hn as (Hs & _). unfold filepath.Dir.
  rewrite (Join_plain _ _ Hn), (render_snoc _ _ _ Hn), (Clean_render dir).
  pose proof (kept_kept_of dir) as Hk.
  destruct (rev (kept_of dir)) as [|e l] eqn:Hrev.
  - destruct (rooted dir).
    + change ("/" ++ n) with ("" ++ String "/" n).
      by rewrite (Split_app_sep _ _ Hs).
    + by rewrite (Split_no_sep _ Hs).
  - change (?a ++ "/" ++ n) with (a ++ String "/" n).
    rewrite (Split_app_sep _ _ Hs). cbn [fst]. rewrite <- Hrev.
    destruct (kept_of_written _ _ Hk) as [Hr Hko]; [by rewrite Hrev|].
    by rewrite Clean_render, Hr, Hko.
Qed.

End Clean.

(** ** File names *)

Section FileNames.

Context `{UnicodeTables}.

Lemma escape_byte_no_sep c : no_sep (url.escape_byte c) = true.
Proof. destruct c as [[] [] [] [] [] [] [] []]; vm_compute; reflexivity. Qed.

Lemma PathEscape_no_sep s : no_sep (url.PathEscape s) = true.
Proof.
  unfold no_sep, url.PathEscape.
  induction s as [|c s IH]; [reflexivity|]. cbn [concat_map].
  pose proof (escape_byte_no_sep c) as Hc. unfold no_sep in Hc.
  by rewrite forall_bytes_app, IH, Hc.
Qed.

Lemma unhex_escape c :
  unhex (url.hex_digit (Z.shiftr (byte_val c) 4))
        (url.hex_digit (Z.land (byte_val c) 15)) = c.
Proof. destruct c as [[] [] [] [] [] [] [] []]; vm_compute; reflexivity. Qed.

Lemma escape_byte_app c r :
  url.escape_byte c ++ r =
  if url.shouldEscape c then
    String "%" (String (url.hex_digit (Z.shiftr (byte_val c) 4))
                  (String (url.hex_digit (Z.land (byte_val c) 15)) r))
  else String c r.
Proof. unfold url.escape_byte. by destruct (url.shouldEscape c). Qed.

Lemma escape_byte_inj c1 c2 r1 r2 :
  url.escape_byte c1 ++ r1 = url.escape_byte c2 ++ r2 -> c1 = c2 /\ r1 = r2.
Proof.
  rewrite !escape_byte_app.
  destruct (url.shouldEscape c1) eqn:H1, (url.shouldEscape c2) eqn:H2;
    intros Heq.
  - injection Heq as Hhi Hlo Hr. split; [|done].
    rewrite <- (unhex_escape c1), <- (unhex_escape c2). by rewrite Hhi, Hlo.
  - injection Heq as <- _. vm_compute in H2. discriminate.
  - injection Heq as -> _. vm_compute in H1. discriminate.
  - by injection Heq as -> ->.
Qed.

(** [PathEscape] loses nothing: two strings with the same escape are the
    same string. *)
Lemma PathEscape_inj s1 s2 :
  url.PathEscape s1 = url.PathEscape s2 -> s1 = s2.
Proof.
  unfold url.PathEscape. revert s2.
  induction s1 as [|c1 s1 IH]; intros [|c2 s2]; cbn [concat_map].
  - done.
  - rewrite escape_byte_app. destruct (url.shouldEscape c2); discriminate.
  - rewrite escape_byte_app. destruct (url.shouldEscape c1); discriminate.
  - intros [-> Hr]%escape_byte_inj. by rewrite (IH _ Hr).
Qed.

Lemma file_name_plain key : plain_name (file_name key).
Proof.
  unfold file_name, plain_name.
  split.
  { pose proof (PathEscape_no_sep (strings.ToLower key)) as Hs.
    unfold no_sep in *. by rewrite forall_bytes_app, Hs. }
  repeat split; intros Heq; apply (f_equal String.length) in Heq;
    rewrite str_length_app in Heq; cbn in Heq; lia.
Qed.

Lemma file_name_inj k1 k2 :
  file_name k1 = file_name k2 -> strings.ToLower k1 = strings.ToLower k2.
Proof. intros Heq%str_app_inj_r. by apply PathEscape_inj. Qed.

Lemma mapped_path_Join storage key :
  mapped_path storage key = filepath.Join (dir storage) (file_name key).
Proof. reflexivity. Qed.

Lemma mapped_path_name storage key :
  snd (filepath.Split (mapped_path storage key)) = file_name key.
Proof. apply Split_Join_name, file_name_plain. Qed.

Lemma mapped_path_Dir storage key :
  filepath.Dir (mapped_path storage key) = filepath.Clean (dir storage).
Proof. apply Dir_Join, file_name_plain. Qed.

Lemma scan_ext_json s :
  filepath.scan_ext (s ++ ".json") = filepath.ExtFound ".json".
Proof.
  induction s as [|c s IH]; [reflexivity|].
  rewrite str_app_cons. cbn [filepath.scan_ext]. by rewrite IH.
Qed.

Lemma file_name_Ext key : filepath.Ext (file_name key) = ".json".
Proof. unfold filepath.Ext, file_name. by rewrite scan_ext_json. Qed.

Lemma mapped_path_other storage k k' :
  strings.ToLower k' <> strings.ToLower k ->
  ~ same_file (mapped_path storage k') (mapped_path storage k).
Proof.
  intros Hne [_ Hname]. rewrite !mapped_path_name in Hname.
  by apply Hne, file_name_inj.
Qed.

(** What is bound to the path of a key, in terms of the directory of the
    store and of the name of the file. *)
Lemma lookup_mapped_path storage key fs :
  fsys.lookup (mapped_path storage key) fs =
  match fs !! filepath.Clean (dir storage) with
  | None => inl ENOENT
  | Some (Unusable e) => inl e
  | Some (Present children) =>
    match children !! file_name key with
    | None => inl ENOENT
    | Some n => inr n
    end
  end.
Proof.
  unfold fsys.lookup. by rewrite mapped_path_Dir, mapped_path_name.
Qed.

End FileNames.

(** ** Files that an operation leaves alone *)

Section Frames.

Lemma ReadFileFunc_lookup {A : Type} path fs1 fs2
    (f : io.Reader -> A -> A * option error) (a : A) :
  fsys.lookup path fs1 = fsys.lookup path fs2 ->
  fstools.ReadFileFunc path f fs1 a = fstools.ReadFileFunc path f fs2 a.
Proof. unfold fstools.ReadFileFunc. by intros ->. Qed.

Lemma bind_frame path n fs other :
  ~ same_file other path ->
  fsys.lookup other (fsys.bind path n fs) = fsys.lookup other fs.
Proof.
  unfold same_file, fsys.bind, fsys.lookup. intros Hne.
  destruct (fs !! filepath.Dir path) as [[e|children]|] eqn:Hd; try done.
  destruct (decide (filepath.Dir other = filepath.Dir path)) as [Heq|Hdir].
  - rewrite Heq, lookup_insert_eq, Hd.
    assert (snd (filepath.Split other) <> snd (filepath.Split path)) as Hb
      by (intros Hb; by apply Hne).
    destruct n; [by rewrite lookup_insert_ne|by rewrite lookup_delete_ne].
  - by rewrite lookup_insert_ne.
Qed.

Lemma Remove_frame path fs err fs' other :
  osfs.Remove path fs = (err, fs') ->
  ~ same_file other path ->
  fsys.lookup other fs' = fsys.lookup other fs.
Proof.
  unfold osfs.Remove. intros Hr Hne.
  destruct (fsys.lookup path fs) as [e|[data|[|]| |]];
    injection Hr as <- <-; try done; by apply bind_frame.
Qed.

Lemma WriteFileFunc_frame_any path w fs err fs' other :
  fstools.WriteFileFunc path w fs = (err, fs') ->
  ~ same_file other path ->
  fsys.lookup other fs' = fsys.lookup other fs.
Proof.
  destruct err as [e|]; intros Hw Hne.
  - by rewrite (WriteFileFunc_failure _ _ _ _ _ Hw).
  - by eapply WriteFileFunc_frame.
Qed.

(** A second write to the same path leaves what a single write leaves. *)
Lemma WriteFileFunc_twice path w1 data fs fs1 :
  fstools.WriteFileFunc path w1 fs = (None, fs1) ->
  fstools.WriteFileFunc path (data, None) fs1
  = fstools.WriteFileFunc path (data, None) fs.
Proof.
  unfold fstools.WriteFileFunc, fsys.bind, fsys.lookup.
  destruct w1 as [data1 [err|]].
  { destruct (fs !! filepath.Dir path) as [[e|ch]|];
      [|destruct (ch !! snd (filepath.Split path)) as [[d|b| |]|]|];
      discriminate. }
  destruct (fs !! filepath.Dir path) as [[e|ch]|] eqn:Hd.
  - discriminate.
  - destruct (ch !! snd (filepath.Split path)) as [[d|b| |]|] eqn:Hn;
      try discriminate; intros [= <-];
      rewrite !lookup_insert_eq; by rewrite !insert_insert_eq.
  - intros [= <-]. rewrite !lookup_insert_eq, lookup_singleton_eq.
    by rewrite insert_insert_eq, insert_singleton_eq.
Qed.

End Frames.

(** ** Keys and files *)

Section KeysFiles.

Context `{UnicodeTables} {T : Type} `{JSONType T}.

Lemma Get_lookup storage k fs1 fs2 :
  fsys.lookup (mapped_path storage k) fs1
  = fsys.lookup (mapped_path storage k) fs2 ->
  Get (T := T) storage k fs1 = Get storage k fs2.
Proof.
  intros Hl. rewrite !Get_stored. unfold stored.
  by rewrite (ReadFileFunc_lookup _ fs1 fs2).
Qed.

(** X1.  Whatever the key, its file lies directly inside the directory of
    the store: the directory part of its path is the cleaned directory,
    and the last element is the escaped lower-case key followed by
    [.json], which holds no separator and carries the extension [Range]
    looks for. *)
Theorem key_file_inside_directory storage key :
  filepath.Dir (mapped_path storage key) = filepath.Clean (dir storage)
  /\ snd (filepath.Split (mapped_path storage key))
     = url.PathEscape (strings.ToLower key) ++ ".json"
  /\ no_sep (url.PathEscape (strings.ToLower key) ++ ".json") = true
  /\ filepath.Ext (url.PathEscape (strings.ToLower key) ++ ".json") = ".json".
Proof.
  split; [apply mapped_path_Dir|]. split; [apply mapped_path_name|].
  split; [apply (file_name_plain key)|apply file_name_Ext].
Qed.

(** X2.  Two keys are kept in the same file exactly when they have the
    same lower case: the map from lower-case keys to paths loses
    nothing. *)
Theorem same_file_same_lower_case storage k1 k2 :
  mapped_path storage k1 = mapped_path storage k2
  <-> strings.ToLower k1 = strings.ToLower k2.
Proof.
  split.
  - intros Heq. apply file_name_inj.
    by rewrite <- !(mapped_path_name storage), Heq.
  - intros Heq. unfold mapped_path. by rewrite Heq.
Qed.

Lemma Put_frame storage k (v : T) fs other :
  ~ same_file other (mapped_path storage k) ->
  fsys.lookup other (snd (Put storage k v fs)) = fsys.lookup other fs.
Proof.
  intros Hne. unfold Put. fold (mapped_path storage k).
  destruct (fstools.WriteFileFunc _ _ fs) as [err fs1] eqn:Hw.
  pose proof (WriteFileFunc_frame_any _ _ _ _ _ _ Hw Hne) as Hl.
  by destruct err.
Qed.

Lemma Delete_frame storage k fs other :
  ~ same_file other (mapped_path storage k) ->
  fsys.lookup other (snd (Delete storage k fs)) = fsys.lookup other fs.
Proof.
  intros Hne. unfold Delete. fold (mapped_path storage k).
  destruct (fstools.Exists _ fs); [|done].
  destruct (osfs.Remove _ fs) as [err fs1] eqn:Hr.
  pose proof (Remove_frame _ _ _ _ _ Hr Hne) as Hl.
  by destruct err.
Qed.

Lemma Edit_frame {U : Type} storage k
    (f : T -> U -> (T * option error) * U) fs u other :
  ~ same_file other (mapped_path storage k) ->
  fsys.lookup other (snd (fst (Edit storage k f fs u)))
  = fsys.lookup other fs.
Proof.
  intros Hne. unfold Edit. fold (mapped_path storage k).
  destruct (fstools.ReadFileFunc _ _ fs _) as [ent [err|]].
  - by destruct (errors.Is err os.ErrNotExist).
  - destruct (f (Value ent) u) as [[value [err|]] u']; [done|].
    destruct (fstools.WriteFileFunc _ _ fs) as [err fs1] eqn:Hw.
    pose proof (WriteFileFunc_frame_any _ _ _ _ _ _ Hw Hne) as Hl.
    by destruct err.
Qed.

(** X3.  [Put], [Edit] and [Delete] on a key leave the entry of every key
    with another lower case as it was: whether they succeed or fail,
    [Get] of the other key returns afterwards what it returned before. *)
Theorem other_keys_untouched {U : Type} storage k k' (v : T)
    (f : T -> U -> (T * option error) * U) fs u :
  strings.ToLower k' <> strings.ToLower k ->
  Get (T := T) storage k' (snd (Put storage k v fs)) = Get storage k' fs
  /\ Get (T := T) storage k' (snd (fst (Edit storage k f fs u)))
     = Get storage k' fs
  /\ Get (T := T) storage k' (snd (Delete storage k fs)) = Get storage k' fs.
Proof.
  intros Hne. pose proof (mapped_path_other storage k k' Hne) as Hother.
  split; [|split]; apply Get_lookup.
  - by apply Put_frame.
  - by apply Edit_frame.
  - by apply Delete_frame.
Qed.

(** X4.  A second [Put] to a key, in whatever letter case, replaces the
    entry altogether: after both succeed the files are those a single
    [Put] of the second value leaves, and [Get] returns the second value
    when its envelope decodes back. *)
Theorem Put_overwrites storage k1 k2 (v1 v2 : T) fs fs1 fs2 :
  same_letters k1 k2 ->
  Put storage k1 v1 fs = (None, fs1) ->
  Put storage k2 v2 fs1 = (None, fs2) ->
  Put storage k2 v2 fs = (None, fs2)
  /\ (decodes_back (strings.ToLower k2) v2 ->
      Get storage k1 fs2 = (v2, None)).
Proof.
  intros Hsame HP1 HP2.
  pose proof (same_letters_path storage _ _ Hsame) as Hpath.
  destruct (Put_success _ _ _ _ _ HP2) as (data & Henc & Hfile).
  split.
  - unfold Put in *. fold (mapped_path storage k1) in HP1.
    fold (mapped_path storage k2) in HP2 |- *.
    rewrite Hpath in HP1.
    destruct (fstools.WriteFileFunc _ _ fs) as [[e|] fs1'] eqn:Hw1;
      [discriminate|]. injection HP1 as ->.
    destruct (jsonentry.Encode {| Key := strings.ToLower k2; Value := v2 |})
      as [data' [e|]] eqn:Henc'; [discriminate|].
    by rewrite <- (WriteFileFunc_twice _ _ _ _ _ Hw1).
  - intros Hrt. destruct (Hrt data Henc) as (ent & Hdec & Hval).
    rewrite <- Hval. apply Get_decoded with (data := data); [|done].
    by rewrite Hpath.
Qed.

(** X11.  [Edit] and [Delete] do not tell keys apart that differ only in
    letter case. *)
Theorem Edit_Delete_any_case {U : Type} storage k1 k2
    (f : T -> U -> (T * option error) * U) fs u :
  same_letters k1 k2 ->
  Edit storage k1 f fs u = Edit storage k2 f fs u
  /\ Delete storage k1 fs = Delete storage k2 fs.
Proof.
  intros Hsame. unfold Edit, Delete.
  by rewrite (same_letters_ToLower _ _ Hsame).
Qed.

End KeysFiles.

(** ** Edit and Delete *)

Section EditDelete.

Context `{UnicodeTables} {T : Type} `{JSONType T}.

(** X5.  When the entry of [k] decodes and the transform returns [v']
    without error, [Edit] writes what [Put(k, v')] writes: the files it
    leaves are those [Put] leaves, it succeeds with [v'] when [Put]
    succeeds, and [Get] then returns [v'] when its envelope decodes
    back. *)
Theorem Edit_writes_as_Put {U : Type} storage k
    (f : T -> U -> (T * option error) * U) fs u ent v' u' :
  stored storage k fs = (ent, None) ->
  f (Value ent) u = ((v', None), u') ->
  snd (fst (Edit storage k f fs u)) = snd (Put storage k v' fs)
  /\ (forall fs',
        Put storage k v' fs = (None, fs') ->
        Edit storage k f fs u = ((v', None), fs', u')
        /\ (decodes_back (strings.ToLower k) v' ->
            Get storage k fs' = (v', None))).
Proof.
  intros Hs Hf. rewrite (Edit_stored _ _ _ _ _ _ Hs), Hf.
  split.
  - unfold Put. fold (mapped_path storage k).
    by destruct (fstools.WriteFileFunc _ _ fs) as [[e|] fs1].
  - intros fs' HPut. split.
    + unfold Put in HPut. fold (mapped_path storage k) in HPut.
      destruct (fstools.WriteFileFunc _ _ fs) as [[e|] fs1];
        [discriminate|]. by injection HPut as ->.
    + intros Hrt.
      destruct (Put_success _ _ _ _ _ HPut) as (data & Henc & Hfile).
      destruct (Hrt data Henc) as (ent' & Hdec & Hval).
      rewrite <- Hval. by apply Get_decoded with (data := data).
Qed.


Lemma stored_value_exists storage k fs (ent : entry T) :
  stored storage k fs = (ent, None) ->
  fstools.Exists (mapped_path storage k) fs = true.
Proof.
  unfold stored, fstools.ReadFileFunc, fstools.Exists, fsys.stat.
  destruct (fsys.lookup (mapped_path storage k) fs) as [e|[data|b| |]];
    try discriminate; done.
Qed.

(** X7.  After [Delete(k)] succeeds, [Get(k)] returns no value; when a
    file existed at the path of [k], [Get] and [Edit] now fail with an
    error that is [ErrNotExist]. *)
Theorem Delete_then_Get {U : Type} storage k
    (f : T -> U -> (T * option error) * U) fs fs' u :
  Delete storage k fs = (None, fs') ->
  (exists e, Get (T := T) storage k fs' = (zero, Some e))
  /\ (fstools.Exists (mapped_path storage k) fs = true ->
      Get (T := T) storage k fs'
        = (zero, Some (fmt.Errorf_w ErrNotExist (": " ++ strings.ToLower k)))
      /\ Edit storage k f fs' u
         = ((zero, Some (fmt.Errorf_w ErrNotExist
                           (": " ++ strings.ToLower k))), fs', u)).
Proof.
  unfold Delete. fold (mapped_path storage k).
  destruct (fstools.Exists (mapped_path storage k) fs) eqn:Hex.
  - destruct (osfs.Remove _ fs) as [[err|] fs1] eqn:Hr; [discriminate|].
    intros [= <-]. apply Remove_absent in Hr as Habs.
    assert (Get (T := T) storage k fs1
            = (zero, Some (fmt.Errorf_w ErrNotExist
                             (": " ++ strings.ToLower k)))) as HG.
    { rewrite Get_stored. unfold stored.
      by rewrite (ReadFileFunc_absent _ _ _ _ Habs), Is_open_error. }
    split; [by eexists|]. intros _. split; [exact HG|].
    unfold Edit. fold (mapped_path storage k).
    by rewrite (ReadFileFunc_absent _ _ _ _ Habs), Is_open_error.
  - intros [= <-]. split; [|discriminate].
    rewrite Get_stored.
    destruct (stored storage k fs) as [ent [cause|]] eqn:Hs.
    + destruct (errors.Is cause os.ErrNotExist); by eexists.
    + apply stored_value_exists in Hs. congruence.
Qed.

End EditDelete.

(** ** Range *)

Section RangeLoop.

Context `{UnicodeTables} {T : Type} `{JSONType T} {U : Type}.
Variable storage : Storage.
Variable f : string -> T -> U -> option error * U.
Variable fs : FS.

(** X8.  [Range] reads the listed entries in order and stops at the first
    failure: what is listed after an entry on which reading, decoding or
    the visitor failed is not read, and what the visitor did before is
    kept. *)
Theorem Range_stops_at_first_failure (before after : list DirEntry) u :
  range_loop storage f fs (before ++ after) u =
  match range_loop storage f fs before u with
  | (Some err, u') => (Some err, u')
  | (None, u') => range_loop storage f fs after u'
  end.
Proof.
  revert u. induction before as [|direntry rest IH]; intros u;
    cbn [app range_loop]; [reflexivity|].
  destruct (IsDir direntry); [apply IH|].
  destruct (negb _); [apply IH|].
  destruct (fstools.ReadFileFunc _ _ fs _) as [ent [err|]].
  - destruct (errors.Is err os.ErrNotExist); [apply IH|reflexivity].
  - destruct (f (Key ent) (Value ent) u) as [[err|] u']; [reflexivity|].
    apply IH.
Qed.

(** X9.  [Range] reads nothing but the files whose name ends in [.json]:
    directories and other files in the listing change neither its result
    nor what the visitor sees. *)
Theorem Range_reads_entries_only (direntries : list DirEntry) u :
  range_loop storage f fs direntries u
  = range_loop storage f fs (List.filter is_entry direntries) u.
Proof.
  revert u. induction direntries as [|direntry rest IH]; intros u;
    [reflexivity|].
  cbn [List.filter]. unfold is_entry at 1.
  destruct (IsDir direntry) eqn:Hd; cbn [negb andb].
  - cbn [range_loop]. rewrite Hd. apply IH.
  - destruct (String.eqb (filepath.Ext (Name direntry)) ".json") eqn:He;
      cbn [range_loop]; rewrite Hd, He; cbn [negb]; [|apply IH].
    destruct (fstools.ReadFileFunc _ _ fs _) as [ent [err|]].
    + destruct (errors.Is err os.ErrNotExist); [apply IH|reflexivity].
    + destruct (f (Key ent) (Value ent) u) as [[err|] u']; [reflexivity|].
      apply IH.
Qed.

End RangeLoop.

(** ** Put and Range together; the kinds of failure *)

Section PutRange.

Context `{UnicodeTables} {T : Type} `{JSONType T}.

(** The directory of the store after a first successful [Put]: one entry,
    the file of the key. *)
Lemma Put_first_entry storage k (v : T) fs fs' :
  no_entries storage fs ->
  Put storage k v fs = (None, fs') ->
  exists data,
    fs' !! filepath.Clean (dir storage)
    = Some (Present {[ file_name k := File data ]}).
Proof.
  intros Hno. unfold Put. fold (mapped_path storage k).
  unfold fstools.WriteFileFunc, fsys.bind.
  rewrite lookup_mapped_path, mapped_path_Dir, mapped_path_name.
  destruct Hno as [Hd | Hd]; rewrite Hd; [|rewrite lookup_empty];
    destruct (jsonentry.Encode _) as [data [err|]]; try discriminate;
    intros [= <-]; exists data; rewrite lookup_insert_eq;
    [done|by rewrite insert_empty].
Qed.

(** X10.  On a store that holds no entry yet and whose directory is not
    the empty string, after [Put(k, v)] succeeds [Range] visits exactly
    one entry, once: the key and the value that the file of [k] decodes
    to. *)
Theorem Put_then_Range {U : Type} storage k (v : T)
    (f : string -> T -> U -> option error * U) fs fs' u ent :
  dir storage <> "" ->
  no_entries storage fs ->
  Put storage k v fs = (None, fs') ->
  stored storage k fs' = (ent, None) ->
  Range storage f fs' u = f (Key ent) (Value ent) u.
Proof.
  intros Hdir Hno HPut Hs.
  destruct (Put_first_entry _ _ _ _ _ Hno HPut) as [data Hd].
  unfold Range, fstools.ReadDir.
  apply String.eqb_neq in Hdir. rewrite Hdir, Hd.
  rewrite map_to_list_singleton. cbn [map fsys.node_is_dir range_loop IsDir Name].
  rewrite file_name_Ext. cbn [String.eqb negb].
  change (String.eqb ".json" ".json") with true. cbn [negb].
  rewrite <- mapped_path_Join. unfold stored in Hs. rewrite Hs.
  by destruct (f (Key ent) (Value ent) u) as [[err|] u'].
Qed.

Lemma range_loop_error_sources {U : Type} storage
    (f : string -> T -> U -> option error * U) fs direntries u e :
  fst (range_loop storage f fs direntries u) = Some e ->
  errors.Is e ErrInternal = true \/ exists k v u0, fst (f k v u0) = Some e.
Proof.
  revert u. induction direntries as [|direntry rest IH]; intros u; cbn.
  - discriminate.
  - destruct (IsDir direntry); [apply IH|].
    destruct (negb _); [apply IH|].
    destruct (fstools.ReadFileFunc _ _ fs _) as [ent [err|]].
    + destruct (errors.Is err os.ErrNotExist); [apply IH|].
      cbn. intros [= <-]. by left.
    + destruct (f (Key ent) (Value ent) u) as [[err|] u'] eqn:Hf.
      * cbn. intros [= <-]. right. exists (Key ent), (Value ent), u.
        by rewrite Hf.
      * apply IH.
Qed.

(** X12.  The store hands out no error of the file system or of the
    decoder as it is.  [Put] and [Delete] fail only with an error that is
    [ErrInternal]; [Get] fails with an error that is either [ErrNotExist]
    or [ErrInternal], never both; [Edit] fails with one of these or with
    the error its transform returned; [Range] fails with an error that is
    [ErrInternal] or with the error its visitor returned. *)
Theorem failures_are_classified storage :
  (forall k (v : T) fs e,
     fst (Put storage k v fs) = Some e -> errors.Is e ErrInternal = true)
  /\ (forall k fs e,
        fst (Delete storage k fs) = Some e -> errors.Is e ErrInternal = true)
  /\ (forall k fs e,
        snd (Get (T := T) storage k fs) = Some e ->
        (errors.Is e ErrNotExist = true /\ errors.Is e ErrInternal = false)
        \/ (errors.Is e ErrInternal = true
            /\ errors.Is e ErrNotExist = false))
  /\ (forall (U : Type) k (f : T -> U -> (T * option error) * U) fs u e,
        snd (fst (fst (Edit storage k f fs u))) = Some e ->
        errors.Is e ErrNotExist = true \/ errors.Is e ErrInternal = true
        \/ exists v u0, snd (fst (f v u0)) = Some e)
  /\ (forall (U : Type) (f : string -> T -> U -> option error * U) fs u e,
        fst (Range storage f fs u) = Some e ->
        errors.Is e ErrInternal = true
        \/ exists k v u0, fst (f k v u0) = Some e).
Proof.
  split; [|split; [|split; [|split]]].
  - intros k v fs e. unfold Put.
    destruct (fstools.WriteFileFunc _ _ fs) as [[err|] fs1]; cbn;
      [|discriminate].
    intros [= <-]. reflexivity.
  - intros k fs e. unfold Delete.
    destruct (fstools.Exists _ fs); [|discriminate].
    destruct (osfs.Remove _ fs) as [[err|] fs1]; cbn; [|discriminate].
    intros [= <-]. reflexivity.
  - intros k fs e. rewrite Get_stored.
    destruct (stored storage k fs) as [ent [cause|]]; [|discriminate].
    destruct (errors.Is cause os.ErrNotExist); cbn; intros [= <-].
    + left. split; reflexivity.
    + right. split; reflexivity.
  - intros U k f fs u e. unfold Edit.
    destruct (fstools.ReadFileFunc _ _ fs _) as [ent [cause|]].
    + destruct (errors.Is cause os.ErrNotExist); cbn; intros [= <-].
      * by left.
      * right. by left.
    + destruct (f (Value ent) u) as [[value [err|]] u'] eqn:Hf.
      * cbn. intros [= <-]. right. right. exists (Value ent), u.
        by rewrite Hf.
      * destruct (fstools.WriteFileFunc _ _ fs) as [[err|] fs1]; cbn;
          [|discriminate].
        intros [= <-]. right. by left.
  - intros U f fs u e. unfold Range.
    destruct (fstools.ReadDir (dir storage) fs) as [direntries [err|]].
    + destruct (errors.Is err os.ErrNotExist); cbn; [discriminate|].
      intros [= <-]. by left.
    + apply range_loop_error_sources.
Qed.

End PutRange.

(** ** A full traversal *)

Section Traversal.

Context `{UnicodeTables} {T : Type} `{JSONType T} {U : Type}.
Variable storage : Storage.
Variable f : string -> T -> U -> option error * U.
Variable fs : FS.

Lemma range_loop_counts (direntries : list DirEntry) n u :
  (forall direntry, In direntry direntries -> is_entry direntry = true ->
     exists ent,
       fstools.ReadFileFunc (filepath.Join (dir storage) (Name direntry))
         jsonentry.Decode fs (empty_entry (T := T)) = (ent, None)) ->
  (forall k v u0, fst (f k v u0) = None) ->
  exists u',
    range_loop storage (counted_visitor f) fs direntries (n, u)
    = (None, ((n + length (List.filter is_entry direntries))%nat, u')).
Proof.
  intros Hread Hf. revert n u.
  induction direntries as [|direntry rest IH]; intros n u.
  - exists u. cbn. by rewrite Nat.add_0_r.
  - assert (forall d, In d rest -> is_entry d = true ->
              exists ent,
                fstools.ReadFileFunc (filepath.Join (dir storage) (Name d))
                  jsonentry.Decode fs (empty_entry (T := T)) = (ent, None))
      as Hrest by (intros d Hd; apply Hread; by right).
    specialize (IH Hrest).
    cbn [range_loop List.filter]. unfold is_entry at 1.
    destruct (IsDir direntry) eqn:Hd; cbn [negb andb]; [apply IH|].
    destruct (String.eqb (filepath.Ext (Name direntry)) ".json") eqn:He;
      cbn [negb]; [|apply IH].
    destruct (Hread direntry) as [ent Hent]; [by left| |].
    { unfold is_entry. by rewrite Hd, He. }
    rewrite Hent.
    unfold counted_visitor at 1.
    destruct (f (Key ent) (Value ent) u) as [r u1] eqn:Hfu.
    pose proof (Hf (Key ent) (Value ent) u) as Hnone.
    rewrite Hfu in Hnone. cbn in Hnone. subst r.
    destruct (IH (S n) u1) as [u' Hu']. exists u'.
    rewrite Hu'. cbn [length]. by rewrite Nat.add_succ_r.
Qed.

(** X13.  When every listed entry can be read and decoded and the visitor
    never fails, [Range] succeeds and has invoked the visitor once for
    each file of the listing whose name ends in [.json], no more and no
    less. *)
Theorem Range_visits_each_entry_once (direntries : list DirEntry) u :
  fstools.ReadDir (dir storage) fs = (direntries, None) ->
  (forall direntry, In direntry direntries -> is_entry direntry = true ->
     exists ent,
       fstools.ReadFileFunc (filepath.Join (dir storage) (Name direntry))
         jsonentry.Decode fs (empty_entry (T := T)) = (ent, None)) ->
  (forall k v u0, fst (f k v u0) = None) ->
  exists u',
    Range storage (counted_visitor f) fs (0%nat, u)
    = (None, (length (List.filter is_entry direntries), u')).
Proof.
  intros Hlist Hread Hf. unfold Range. rewrite Hlist.
  by apply range_loop_counts.
Qed.

End Traversal.

(** ** The store at work on concrete inputs *)

Example Put_writes_envelope :
  Put data_store "Foo" 5 ∅
  = (None, one_file "foo.json"
             ("{" ++ quoted "key" ++ ":" ++ quoted "foo" ++ ","
                  ++ quoted "value" ++ ":5}" ++ jsonentry.newline)).
Proof. vm_compute. reflexivity. Qed.

Example Edit_increments :
  Edit data_store "foo" increment with_foo 0%nat
  = ((6, None), snd (Put data_store "foo" 6 ∅), 1%nat).
Proof. vm_compute. reflexivity. Qed.

Example Range_visits_entry :
  Range data_store collect with_foo [] = (None, [("foo", 5)]).
Proof. vm_compute. reflexivity. Qed.

Example Get_missing :
  Get (T := Z) data_store "missing" ∅
  = (0, Some (wrapError "entry does not exist: missing" ErrNotExist)).
Proof. vm_compute. reflexivity. Qed.

Example Get_denied :
  Get (T := Z) data_store "a" {[ "data" := Present {[ "a.json" := Denied ]} ]}
  = (0, Some (wrapError
                ("internal error: failed to get JSON: "
                   ++ "open data/a.json: permission denied") ErrInternal)).
Proof. vm_compute. reflexivity. Qed.

Example Get_not_a_directory :
  Get (T := Z) data_store "a" {[ "data" := Unusable ENOTDIR ]}
  = (0, Some (wrapError
                ("internal error: failed to get JSON: "
                   ++ "open data/a.json: not a directory") ErrInternal)).
Proof. vm_compute. reflexivity. Qed.

Example Range_skips :
  Range data_store collect
    {[ "data" := Present {[ "a.json" := File other_key;
                            "notes.txt" := File "x";
                            "sub.json" := Directory true;
                            "gone.json" := Dangling ]} ]} []
  = (None, [("other", 7)]).
Proof. vm_compute. reflexivity. Qed.

Example Delete_twice :
  Delete data_store "Foo" with_foo = (None, {[ "data" := Present ∅ ]})
  /\ Delete data_store "Foo" {[ "data" := Present ∅ ]}
     = (None, {[ "data" := Present ∅ ]}).
Proof. split; vm_compute; reflexivity. Qed.

Lemma decodes_back_foo_5 : decodes_back (strings.ToLower "Foo") 5.
Proof.
  intros data Henc. vm_compute in Henc. injection Henc as <-.
  eexists. split; vm_compute; reflexivity.
Defined.

Lemma Put_then_Get_witness :
  Get data_store "Foo" with_foo = (5, None).
Proof.
  refine (Put_then_Get data_store "Foo" 5 ∅ with_foo _ _).
  - exact decodes_back_foo_5.
  - vm_compute. reflexivity.
Defined.

(** C1, as stated, fails on a string that is not UTF-8: [Put] succeeds and
    writes the escape of the replacement rune, and [Get] succeeds with
    that rune, not with the value put. *)
Lemma Put_then_Get_not_utf8 :
  exists fs',
    Put data_store "k" not_utf8 ∅ = (None, fs')
    /\ Get data_store "k" fs' = (replacement, None)
    /\ replacement <> not_utf8.
Proof.
  eexists. split; [vm_compute; reflexivity|].
  split; [vm_compute; reflexivity|]. vm_compute. discriminate.
Qed.

Lemma Edit_transform_error_witness :
  Edit data_store "foo" failing with_foo 0%nat
    = ((0, Some boom), with_foo, 1%nat)
  /\ Get data_store "foo" with_foo = (5, None).
Proof.
  refine (Edit_transform_error data_store "foo" failing with_foo 0%nat
            {| Key := "foo"; Value := 5 |} 6 boom 1%nat _ _).
  - vm_compute. reflexivity.
  - reflexivity.
Defined.

Lemma Put_Foo_Get_any_case_witness :
  Get data_store "foo" with_foo = (5, None)
  /\ Get data_store "FOO" with_foo = (5, None).
Proof.
  assert (Put data_store "Foo" 5 ∅ = (None, with_foo)) as HPut
    by (vm_compute; reflexivity).
  refine (let Hc := Put_Foo_Get_any_case data_store 5 ∅ with_foo _ HPut in
          conj (proj1 Hc) (proj1 (proj2 Hc))).
  exact decodes_back_foo_5.
Defined.

(** C3, as stated, fails on a string that is not UTF-8: after
    [Put("Foo", v)], [Get("foo")] and [Get("FOO")] return the replacement
    rune. *)
Lemma Put_Foo_Get_not_utf8 :
  exists fs',
    Put data_store "Foo" not_utf8 ∅ = (None, fs')
    /\ Get data_store "foo" fs' = (replacement, None)
    /\ Get data_store "FOO" fs' = (replacement, None)
    /\ replacement <> not_utf8.
Proof.
  eexists. split; [vm_compute; reflexivity|].
  split; [vm_compute; reflexivity|].
  split; [vm_compute; reflexivity|]. vm_compute. discriminate.
Qed.

Lemma Edit_absent_witness :
  Edit data_store "missing" increment ∅ 0%nat
  = ((0, Some (fmt.Errorf_w ErrNotExist ": missing")), ∅, 0%nat).
Proof.
  refine (proj1 (Edit_absent data_store "missing" increment ∅ 0%nat _)).
  vm_compute. reflexivity.
Defined.

Lemma Range_missing_directory_witness :
  Range data_store (counted_visitor collect) ∅ (0%nat, [])
  = (None, (0%nat, [])).
Proof.
  refine (proj2 (Range_missing_directory data_store collect ∅ [] _)).
  vm_compute. reflexivity.
Defined.

(** C7, as stated, fails on a visitor that returns [ErrNotExist]: [Range]
    returns that error. *)
Lemma Range_returns_visitor_NotExist :
  Range data_store stop_NotExist with_foo 0%nat = (Some ErrNotExist, 1%nat)
  /\ errors.Is ErrNotExist ErrNotExist = true.
Proof. split; vm_compute; reflexivity. Qed.


Lemma Get_ignores_stored_key_witness :
  Get data_store "a" (one_file "a.json" other_key) = (7, None)
  /\ legacy.Get (legacy.New "data") "a" (one_file "a.json" other_key)
     = (7, None).
Proof.
  refine (Get_ignores_stored_key data_store "a"
            (one_file "a.json" other_key) other_key "other" 7 _ _).
  - vm_compute. reflexivity.
  - vm_compute. reflexivity.
Defined.

(** ** The further properties on concrete inputs *)

Lemma other_keys_untouched_witness :
  Get data_store "foo" (snd (Put data_store "a" 1 with_foo))
    = Get (T := Z) data_store "foo" with_foo
  /\ Get data_store "foo" (snd (fst (Edit data_store "a" increment with_foo 0%nat)))
     = Get (T := Z) data_store "foo" with_foo
  /\ Get data_store "foo" (snd (Delete data_store "a" with_foo))
     = Get (T := Z) data_store "foo" with_foo.
Proof.
  refine (other_keys_untouched data_store "a" "foo" 1 increment with_foo
            0%nat _).
  vm_compute. discriminate.
Defined.

Lemma Put_overwrites_witness :
  Put data_store "foo" 6 ∅ = (None, with_foo_6)
  /\ (decodes_back (strings.ToLower "foo") 6 ->
      Get data_store "Foo" with_foo_6 = (6, None)).
Proof.
  refine (Put_overwrites data_store "Foo" "foo" 5 6 ∅ with_foo with_foo_6
            _ _ _).
  - vm_compute. reflexivity.
  - vm_compute. reflexivity.
  - vm_compute. reflexivity.
Defined.

Lemma Edit_writes_as_Put_witness :
  snd (fst (Edit data_store "foo" increment with_foo 0%nat))
  = snd (Put data_store "foo" 6 with_foo).
Proof.
  refine (proj1 (Edit_writes_as_Put data_store "foo" increment with_foo
                   0%nat {| Key := "foo"; Value := 5 |} 6 1%nat _ _)).
  - vm_compute. reflexivity.
  - reflexivity.
Defined.


Lemma Delete_then_Get_witness :
  Get (T := Z) data_store "Foo" emptied
  = (0, Some (fmt.Errorf_w ErrNotExist ": foo")).
Proof.
  refine (proj1 (proj2 (Delete_then_Get (T := Z) data_store "Foo" increment
                          with_foo emptied 0%nat _) _)).
  - vm_compute. reflexivity.
  - vm_compute. reflexivity.
Defined.

Lemma Put_then_Range_witness :
  Range data_store collect with_foo [] = collect "foo" 5 [].
Proof.
  refine (Put_then_Range data_store "Foo" 5 collect ∅ with_foo []
            {| Key := "foo"; Value := 5 |} _ _ _ _).
  - discriminate.
  - left. vm_compute. reflexivity.
  - vm_compute. reflexivity.
  - vm_compute. reflexivity.
Defined.

Lemma Edit_Delete_any_case_witness :
  Edit data_store "Foo" increment with_foo 0%nat
    = Edit data_store "FOO" increment with_foo 0%nat
  /\ Delete data_store "Foo" with_foo = Delete data_store "FOO" with_foo.
Proof.
  refine (Edit_Delete_any_case data_store "Foo" "FOO" increment with_foo
            0%nat _).
  vm_compute. reflexivity.
Defined.

Lemma Range_visits_each_entry_once_witness :
  exists seen,
    Range data_store (counted_visitor collect) with_foo (0%nat, [])
    = (None, (1%nat, seen)).
Proof.
  refine (Range_visits_each_entry_once data_store collect with_foo
            [{| Name := "foo.json"; IsDir := false |}] [] _ _ _).
  - vm_compute. reflexivity.
  - intros direntry [<-|[]] _. eexists. vm_compute. reflexivity.
  - reflexivity.
Defined.
